(** * Zandagort server: the core loop, the dispatcher and the query parser

    A shallow embedding of [zandagort.py].  The core server is single
    threaded: it takes work items from one request queue, runs inner
    commands (queued by the cron thread) against the game, and answers client
    requests (queued by the HTTP request threads) on their private
    response queues.

    The modules [game], [config], [mycron], [getcontroller],
    [postcontroller] and [utils] are collaborators of the server; the
    development takes what the server calls of them as the fields of the
    class [Collaborators]. *)

From stdpp Require Import gmap strings list fin_maps.
From Stdlib Require Import Ascii String ZArith DecimalString.

Local Open Scope string_scope.
Local Open Scope list_scope.
Local Open Scope stdpp_scope.

(** ** Python exceptions *)

(** The three places of the exception hierarchy that the server tells
    apart: [except Exception] in [_execute_client_request] catches the
    first, [except (KeyboardInterrupt, SystemExit)] in [serve_forever] the
    second, and neither catches any other [BaseException]. *)
Inductive exc_root :=
  | FromException
  | FromKeyboardInterruptOrSystemExit
  | FromBaseException.

(** An exception in flight, as [sys.exc_info()] shows it to the server:
    [exc_type.__name__], [str(exc_value)], and the lines that
    [traceback.format_exception] makes of it. *)
Record pyexception := {
  exc_root_of : exc_root;
  exc_type_name : string;
  exc_value_str : string;
  exc_trace_lines : list string
}.

Definition isinstance_Exception (e : pyexception) : bool :=
  match exc_root_of e with FromException => true | _ => false end.

Definition isinstance_shutdown (e : pyexception) : bool :=
  match exc_root_of e with FromKeyboardInterruptOrSystemExit => true | _ => false end.

(** The [KeyboardInterrupt] that the interpreter raises in the main thread
    when the process is interrupted. *)
Definition KeyboardInterrupt : pyexception :=
  {| exc_root_of := FromKeyboardInterruptOrSystemExit;
     exc_type_name := "KeyboardInterrupt";
     exc_value_str := "";
     exc_trace_lines := [] |}.

(** The result of a call that may raise. *)
Inductive outcome (A : Type) :=
  | Returned (a : A)
  | Raised (e : pyexception).
Arguments Returned {A} a.
Arguments Raised {A} e.

(** ** [_parse_qs_flat] *)

Module QueryString.

(** [str.split(sep)] for a one character separator. *)
Fixpoint split (sep : ascii) (s : string) : list string :=
  match s with
  | EmptyString => [EmptyString]
  | String c s' =>
      if Ascii.eqb c sep then EmptyString :: split sep s'
      else match split sep s' with
           | [] => [String c EmptyString]
           | w :: ws => String c w :: ws
           end
  end.

(** [str.split(sep, 1)]: [None] when the separator does not occur (the
    result has one element), the two parts otherwise. *)
Fixpoint split_once (sep : ascii) (s : string) : option (string * string) :=
  match s with
  | EmptyString => None
  | String c s' =>
      if Ascii.eqb c sep then Some (EmptyString, s')
      else match split_once sep s' with
           | Some (a, b) => Some (String c a, b)
           | None => None
           end
  end.

(** [s.replace('+', ' ')] *)
Fixpoint replace_plus (s : string) : string :=
  match s with
  | EmptyString => EmptyString
  | String c s' => String (if Ascii.eqb c "+" then " "%char else c) (replace_plus s')
  end.

Fixpoint contains (c : ascii) (s : string) : bool :=
  match s with
  | EmptyString => false
  | String d s' => Ascii.eqb d c || contains c s'
  end.

Section ParseQs.

(** What [urllib.parse.unquote] does to a string that has a ['%'] in it:
    the decoding of the escapes, which the server does not look at. *)
Variable percent_decode : string → string.

(** [urllib.parse.unquote]: a string without ['%'] is returned as it is. *)
Definition unquote (s : string) : string :=
  if contains "%" s then percent_decode s else s.

(** [urllib.parse.parse_qsl] of the standard library, with the defaults that
    [parse_qs(query)] passes: fields are separated by ['&'], empty fields,
    fields without ['='] and fields with a blank value are skipped. *)
Definition parse_field (name_value : string) : option (string * string) :=
  match name_value with
  | EmptyString => None
  | _ =>
      match split_once "=" name_value with
      | None => None
      | Some (n, v) =>
          match v with
          | EmptyString => None
          | _ => Some (unquote (replace_plus n), unquote (replace_plus v))
          end
      end
  end.

Definition parse_qsl (qs : string) : list (string * string) :=
  omap parse_field (split "&" qs).

(** The loop of [urllib.parse.parse_qs]: the values of a name are collected,
    in the order of the query, in the list the dictionary has for it. *)
Definition parse_qs_add (parsed_result : gmap string (list string))
    (pair : string * string) : gmap string (list string) :=
  match parsed_result !! pair.1 with
  | Some values => <[pair.1 := values ++ [pair.2]]> parsed_result
  | None => <[pair.1 := [pair.2]]> parsed_result
  end.

Definition parse_qs (qs : string) : gmap string (list string) :=
  foldl parse_qs_add ∅ (parse_qsl qs).

(** The loop of [_parse_qs_flat] over [deep_query_dict.items()].  [None] is
    the [IndexError] of [deep_value[0]] on an empty list. *)
Fixpoint flatten_items (items : list (string * list string))
    (flat_query_dict : gmap string string) : option (gmap string string) :=
  match items with
  | [] => Some flat_query_dict
  | (key, deep_value) :: rest =>
      match deep_value with
      | [] => None
      | first :: _ => flatten_items rest (<[key := first]> flat_query_dict)
      end
  end.

Definition _parse_qs_flat (query : string) : option (gmap string string) :=
  let deep_query_dict := parse_qs query in
  flatten_items (map_to_list deep_query_dict) ∅.

(** The values that the fields of a query give to one name, in order. *)
Definition values_of (key : string) (pairs : list (string * string)) : list string :=
  (λ p, p.2) <$> filter (λ p, p.1 = key) pairs.

End ParseQs.

End QueryString.

(** ** The enumerations of [zandagort.py] *)

(** [InnerCommands = MyEnum("InnerCommands", names=["Sim", "Dump"])] *)
Inductive InnerCommands := Sim | Dump.

(** [ErrorCodes = MyEnum("ErrorCodes", names=["ArgumentSyntaxError"])] *)
Inductive ErrorCodes := ArgumentSyntaxError.

(** [str] of a member of an [Enum]: class name, dot, member name. *)
Definition str_InnerCommands (c : InnerCommands) : string :=
  match c with
  | Sim => "InnerCommands.Sim"
  | Dump => "InnerCommands.Dump"
  end.

(** [MyEnum.get_all_values]: the members in the order of their definition. *)
Definition get_all_values_InnerCommands : list InnerCommands := [Sim; Dump].
Definition get_all_values_ErrorCodes : list ErrorCodes := [ArgumentSyntaxError].

(** What a work item carries under ["inner_command"]: the cron tasks are
    registered with the two members; anything else takes the last branch of
    [_execute_inner_command], which only needs its [str]. *)
Inductive inner_command :=
  | Member (c : InnerCommands)
  | NotMember (str_command : string).

Definition str_command (command : inner_command) : string :=
  match command with
  | Member c => str_InnerCommands c
  | NotMember s => s
  end.

(** The [arguments] of a client request: what the request thread parsed, or
    [ErrorCodes.ArgumentSyntaxError] when parsing raised.  The test
    [arguments == ErrorCodes.ArgumentSyntaxError] is the match on [ArgError]. *)
Inductive arguments (Args : Type) :=
  | ArgError (code : ErrorCodes)
  | ArgValue (a : Args).
Arguments ArgError {Args} code.
Arguments ArgValue {Args} a.

(** ** The collaborators of the core server *)

(** What [ZandagortServer] calls of the game, of its [auth] and of the
    controllers built on the game.  The game and the controllers are one
    mutable world, which only the core server's thread touches. *)
Class Collaborators := {
  World : Type;
  User : Type;
  Args : Type;
  Value : Type;
  (** what [getattr(self._controllers[method], command)] finds *)
  Attr : Type;
  (** [self._game.auth] *)
  get_user_by_auth_cookie : World → string → option User;
  create_new_session : World → World * (string * User);
  renew_session : World → string → World;
  is_guest : World → User → bool;
  (** [self._game.sim()], and [str(self._game.get_time())] *)
  sim : World → World * outcome unit;
  get_time_str : World → string;
  (** [getattr(self._controllers[method], command)]; [None] is the
      [AttributeError] *)
  controller_getattr : World → string → string → option Attr;
  (** [getattr(controller_function, "is_public", False)] *)
  is_public : Attr → bool;
  (** the call of [controller_function] on the unpacked [arguments], with
      [current_user] and [auth_cookie_value] set on the controller *)
  call : Attr → World → User → string → Args → World * outcome Value;
  (** [utils.create_request_string] *)
  create_request_string : string → string → arguments Args → string → string;
  (** [config.SERVER_HOST] and [str(config.SERVER_PORT)] *)
  SERVER_HOST : string;
  str_SERVER_PORT : string
}.

(** ** The state of the core server *)

(** One call of [_log]: the channel, the message and the [raw] flag.  A
    message that is not raw is written after the time of the wall clock. *)
Record log_line := {
  logtype : string;
  message : string;
  raw : bool
}.

(** The calls that the server makes to its collaborators (a ghost trace). *)
Inductive collaborator_call :=
  | CallGetUser (auth_cookie_value : string)
  | CallCreateSession
  | CallRenewSession (auth_cookie_value : string)
  | CallIsGuest
  | CallController (method command : string)
  | CallSim.

Section Server.
Context `{Collaborators}.

(** A value of a response dictionary. *)
Inductive field :=
  | FStr (s : string)
  | FValue (v : Value).

(** The dictionaries that [_execute_client_request] returns. *)
Definition error_response (error auth_cookie_value : string) : gmap string field :=
  {[ "error" := FStr error; "auth_cookie_value" := FStr auth_cookie_value ]}.

Definition success_response (response : Value) (auth_cookie_value : string)
    : gmap string field :=
  {[ "response" := FValue response; "auth_cookie_value" := FStr auth_cookie_value ]}.

(** The dictionaries on the request queue: [{"inner_command": command}] of
    [_cron_fun], and the six keys of [_get_response], whose
    ["response_queue"] is the queue made for this one request. *)
Inductive work_item :=
  | InnerItem (inner_command : inner_command)
  | ClientItem (response_queue : nat) (method command : string)
      (arguments : arguments Args) (auth_cookie_value client_ip : string).

(** ["inner_command" in request] *)
Definition has_inner_command (request : work_item) : bool :=
  match request with
  | InnerItem _ => true
  | ClientItem _ _ _ _ _ _ => false
  end.

Record server := {
  game : World;
  request_queue : list work_item;
  (** the queues made by the request threads, by identity *)
  response_queues : gmap nat (list (gmap string field));
  log : list log_line;
  calls : list collaborator_call;
  http_server_running : bool;
  logfiles_closed : bool
}.

Definition set_game (g : World) (s : server) : server :=
  {| game := g; request_queue := request_queue s;
     response_queues := response_queues s; log := log s; calls := calls s;
     http_server_running := http_server_running s;
     logfiles_closed := logfiles_closed s |}.

Definition set_request_queue (q : list work_item) (s : server) : server :=
  {| game := game s; request_queue := q;
     response_queues := response_queues s; log := log s; calls := calls s;
     http_server_running := http_server_running s;
     logfiles_closed := logfiles_closed s |}.

Definition set_response_queues (qs : gmap nat (list (gmap string field)))
    (s : server) : server :=
  {| game := game s; request_queue := request_queue s;
     response_queues := qs; log := log s; calls := calls s;
     http_server_running := http_server_running s;
     logfiles_closed := logfiles_closed s |}.

Definition note (c : collaborator_call) (s : server) : server :=
  {| game := game s; request_queue := request_queue s;
     response_queues := response_queues s; log := log s;
     calls := calls s ++ [c];
     http_server_running := http_server_running s;
     logfiles_closed := logfiles_closed s |}.

(** [_log], and its three wrappers. *)
Definition _log (s : server) (logtype message : string) (raw : bool) : server :=
  {| game := game s; request_queue := request_queue s;
     response_queues := response_queues s;
     log := log s ++ [{| logtype := logtype; message := message; raw := raw |}];
     calls := calls s;
     http_server_running := http_server_running s;
     logfiles_closed := logfiles_closed s |}.

Definition _log_access (s : server) (message : string) (raw : bool) : server :=
  _log s "access" message raw.

Definition _log_error (s : server) (message : string) (raw : bool) : server :=
  _log s "error" message raw.

Definition _log_sys (s : server) (message : string) (raw : bool) : server :=
  _log s "sys" message raw.

(** The lines of one channel. *)
Definition channel (name : string) (l : list log_line) : list log_line :=
  filter (λ line, logtype line = name) l.

(** [str.isspace] on the characters below 256, and [str.rstrip()]. *)
Definition is_space (c : ascii) : bool :=
  let n := nat_of_ascii c in
  (Nat.leb 9 n && Nat.leb n 13) || (Nat.leb 28 n && Nat.leb n 32)
  || Nat.eqb n 133 || Nat.eqb n 160.

Fixpoint rstrip (s : string) : string :=
  match s with
  | EmptyString => EmptyString
  | String c s' =>
      match rstrip s' with
      | EmptyString => if is_space c then EmptyString else String c EmptyString
      | r => String c r
      end
  end.

(** *** [_execute_inner_command] *)

Definition _execute_inner_command (s : server) (command : inner_command)
    : server * outcome unit :=
  match command with
  | Member Sim =>
      let '(g, r) := sim (game s) in
      let s := set_game g (note CallSim s) in
      match r with
      | Raised e => (s, Raised e)
      | Returned _ =>
          (_log_sys s ("[" +:+ str_command command +:+ "] game time = "
                           +:+ get_time_str (game s)) false,
           Returned tt)
      end
  | Member Dump =>
      let s := _log_sys s ("[" +:+ str_command command +:+ "] Dumping...") false in
      let s := _log_sys s ("[" +:+ str_command command +:+ "] Dumped.") false in
      (s, Returned tt)
  | NotMember _ =>
      (_log_sys s ("[" +:+ str_command command +:+ "] Unknown command") false,
       Returned tt)
  end.

(** *** [_execute_client_request] *)

(** The first three statements: look the cookie up, make a new session when
    it has no user, renew the session of the cookie that results. *)
Definition resolve_identity (s : server) (auth_cookie_value : string)
    : server * string * User :=
  let current_user := get_user_by_auth_cookie (game s) auth_cookie_value in
  let s := note (CallGetUser auth_cookie_value) s in
  let '(s, auth_cookie_value, current_user) :=
    match current_user with
    | None =>
        let '(g, (new_cookie, new_user)) := create_new_session (game s) in
        (set_game g (note CallCreateSession s), new_cookie, new_user)
    | Some u => (s, auth_cookie_value, u)
    end in
  let s := set_game (renew_session (game s) auth_cookie_value)
             (note (CallRenewSession auth_cookie_value) s) in
  (s, auth_cookie_value, current_user).

(** The [except Exception] clause: the first line names the request and the
    exception, the lines of the traceback follow, raw and indented. *)
Definition log_exception (s : server) (request_string : string) (e : pyexception)
    : server :=
  let s := _log_error s (request_string +:+ " ! " +:+ exc_type_name e +:+ ": "
                           +:+ exc_value_str e) false in
  foldl (λ s trace_line, _log_error s ("    " +:+ rstrip trace_line) true)
        s (exc_trace_lines e).

Definition _execute_client_request (s : server) (method command : string)
    (arguments : arguments Args) (auth_cookie_value client_ip : string)
    : server * outcome (gmap string field) :=
  let '(s, auth_cookie_value, current_user) := resolve_identity s auth_cookie_value in
  let request_string := create_request_string method command arguments client_ip in
  if negb (bool_decide (method ∈ ["GET"; "POST"])) then
    (_log_error s (request_string +:+ " ! Unknown method") false,
     Returned (error_response "Unknown method" auth_cookie_value))
  else
    match controller_getattr (game s) method command with
    | None =>
        (_log_error s (request_string +:+ " ! Unknown command") false,
         Returned (error_response "Unknown command" auth_cookie_value))
    | Some controller_function =>
        match arguments with
        | ArgError ArgumentSyntaxError =>
            (_log_error s (request_string +:+ " ! Syntax error in arguments") false,
             Returned (error_response "Syntax error in arguments" auth_cookie_value))
        | ArgValue a =>
            let denied :=
              if is_public controller_function then (s, false)
              else (note CallIsGuest s, is_guest (game s) current_user) in
            let '(s, guest) := denied in
            if guest then
              (_log_error s (request_string +:+ " ! Access denied. You have to login.")
                 false,
               Returned (error_response "Access denied. You have to login."
                           auth_cookie_value))
            else
              let '(g, r) :=
                call controller_function (game s) current_user auth_cookie_value a in
              let s := set_game g (note (CallController method command) s) in
              match r with
              | Raised e =>
                  if isinstance_Exception e then
                    (log_exception s request_string e,
                     Returned (error_response
                                 (exc_type_name e +:+ ": " +:+ exc_value_str e)
                                 auth_cookie_value))
                  else (s, Raised e)
              | Returned response =>
                  (_log_access s request_string false,
                   Returned (success_response response auth_cookie_value))
              end
        end
    end.

(** *** The request queue *)

(** [_cron_fun]: the cron thread puts one dictionary on the request queue. *)
Definition _cron_fun (s : server) (command : inner_command) : server :=
  set_request_queue (request_queue s ++ [InnerItem command]) s.

(** The first half of [_get_response]: a request thread makes a queue for
    the response and puts the request on the request queue. *)
Definition _get_response_put (s : server) (my_queue : nat) (method command : string)
    (arguments : arguments Args) (auth_cookie_value client_ip : string) : server :=
  set_request_queue
    (request_queue s
       ++ [ClientItem my_queue method command arguments auth_cookie_value client_ip])
    (set_response_queues (<[my_queue := []]> (response_queues s)) s).

(** [request["response_queue"].put(response)] *)
Definition put (response_queue : nat) (response : gmap string field) (s : server)
    : server :=
  set_response_queues
    (<[response_queue := default [] (response_queues s !! response_queue) ++ [response]]>
       (response_queues s)) s.

(** *** [serve_forever] *)

(** One turn of the [while True] loop.  An empty queue is the [queue.Empty]
    that [get(True, 4)] raises after four seconds, and the loop goes on. *)
Definition loop_body (s : server) : server * outcome unit :=
  match request_queue s with
  | [] => (s, Returned tt)
  | request :: rest =>
      let s := set_request_queue rest s in
      match request with
      | InnerItem command => _execute_inner_command s command
      | ClientItem response_queue method command arguments auth_cookie_value client_ip =>
          let '(s, r) := _execute_client_request s method command arguments
                           auth_cookie_value client_ip in
          match r with
          | Raised e => (s, Raised e)
          | Returned response => (put response_queue response s, Returned tt)
          end
      end
  end.

(** [_shutdown], and the [finally] clause of [serve_forever]. *)
Definition _shutdown (s : server) : server :=
  let s := _log_sys s "Shut down." false in
  {| game := game s; request_queue := request_queue s;
     response_queues := response_queues s; log := log s; calls := calls s;
     http_server_running := http_server_running s;
     logfiles_closed := true |}.

Definition finally (s : server) : server :=
  _shutdown
    {| game := game s; request_queue := request_queue s;
       response_queues := response_queues s; log := log s; calls := calls s;
       http_server_running := false;
       logfiles_closed := logfiles_closed s |}.

(** How [serve_forever] ends. *)
Inductive ending :=
  | StillServing
  | ShutDown
  | Propagated (e : pyexception).

(** An exception that leaves the [while] loop: the [except] clause takes
    [KeyboardInterrupt] and [SystemExit], the [finally] clause runs in any
    case, and any other exception goes on to the caller. *)
Definition leave_loop (s : server) (e : pyexception) : server * ending :=
  if isinstance_shutdown e then (finally (_log_sys s "Shutting down..." false), ShutDown)
  else (finally s, Propagated e).

(** What the threads do, in the order in which it happens: the core server
    takes a turn of its loop, the cron thread fires a task, a request thread
    submits a request, or the process is interrupted. *)
Inductive event :=
  | Turn
  | CronFires (command : inner_command)
  | ClientSubmits (my_queue : nat) (method command : string)
      (arguments : arguments Args) (auth_cookie_value client_ip : string)
  | Interrupt.

Fixpoint serve_forever (s : server) (schedule : list event) : server * ending :=
  match schedule with
  | [] => (s, StillServing)
  | Turn :: rest =>
      let '(s, r) := loop_body s in
      match r with
      | Returned _ => serve_forever s rest
      | Raised e => leave_loop s e
      end
  | CronFires command :: rest => serve_forever (_cron_fun s command) rest
  | ClientSubmits my_queue method command arguments auth_cookie_value client_ip :: rest =>
      serve_forever
        (_get_response_put s my_queue method command arguments auth_cookie_value client_ip)
        rest
  | Interrupt :: _ => leave_loop s KeyboardInterrupt
  end.

(** A controller function whose failures are errors: what it raises derives
    from [Exception]. *)
Definition raises_only_errors (f : Attr) : Prop :=
  ∀ w u cookie a w' e,
    call f w u cookie a = (w', Raised e) → isinstance_Exception e = true.

(** The error string of what [_execute_client_request] gives: the string under
    ["error"] of a returned dictionary, empty when there is none. *)
Definition error_string (r : outcome (gmap string field)) : string :=
  match r with
  | Returned response =>
      match response !! "error" with
      | Some (FStr error) => error
      | _ => ""
      end
  | Raised _ => ""
  end.

(** The lines that [log_exception] writes for the traceback. *)
Definition trace_log_lines (e : pyexception) : list log_line :=
  (λ trace_line,
     {| logtype := "error"; message := "    " +:+ rstrip trace_line; raw := true |})
    <$> exc_trace_lines e.

End Server.

(** ** [main] *)

(** The values of [errno.EACCES] (permission denied) and [errno.EADDRINUSE]
    (address already in use) on Linux. *)
Definition EACCES : Z := 13.
Definition EADDRINUSE : Z := 98.

Section Main.
Context `{Collaborators}.

(** How [ZandagortServer(config.SERVER_HOST, config.SERVER_PORT)] ends: with
    a server, with a [socket.error] (binding the listening socket is the
    first thing that can fail), or with another exception. *)
Inductive construction :=
  | Constructed (s : server)
  | SocketError (errno : Z) (serr : pyexception)
  | OtherError (e : pyexception).

(** [ZandagortServer.start] *)
Definition start (s : server) : server :=
  _log_sys
    {| game := game s; request_queue := request_queue s;
       response_queues := response_queues s; log := log s; calls := calls s;
       http_server_running := true;
       logfiles_closed := logfiles_closed s |}
    ("Listening at " +:+ SERVER_HOST +:+ ":" +:+ str_SERVER_PORT +:+ "...") false.

(** How [main] ends: it returns or raises before the server is started, or
    it has called [serve_forever]. *)
Inductive main_ending :=
  | ReturnedBeforeStart
  | RaisedBeforeStart (e : pyexception)
  | Served (s : server) (e : ending).

(** [main]: what it prints, and how it ends. *)
Definition main (c : construction) (schedule : list event)
    : list string * main_ending :=
  let stdout := ["Launching Zandagort Server..."] in
  match c with
  | SocketError errno serr =>
      if bool_decide (errno = EACCES) then
        (stdout ++ ["[ERROR] port " +:+ str_SERVER_PORT
                      +:+ " already used by some other service.";
                    "Change it in config.py"],
         ReturnedBeforeStart)
      else (stdout, RaisedBeforeStart serr)
  | OtherError e => (stdout, RaisedBeforeStart e)
  | Constructed server =>
      let server := start server in
      let stdout := stdout ++ ["Zandagort Server launched."] in
      let '(server, e) := serve_forever server schedule in
      match e with
      | ShutDown => (stdout ++ ["Zandagort Server shut down."], Served server e)
      | _ => (stdout, Served server e)
      end
  end.

End Main.

(** ** A small deployment

    A game that counts its ticks and breaks at the third one, a session
    store with one logged in user, and a GET controller with four
    functions.  The theorems below are applied to it. *)

Module Sample.

Record world := {
  time : nat;
  sessions : gmap string string;
  renewed : list string
}.

Inductive attr := whoami | build | broken | leave.

Definition ValueError : pyexception :=
  {| exc_root_of := FromException;
     exc_type_name := "ValueError";
     exc_value_str := "no such planet";
     exc_trace_lines :=
       ["Traceback (most recent call last):" +:+ String "010" "";
        "  File zandagort.py, line 318, in _execute_client_request" +:+ String "010" "";
        "ValueError: no such planet" +:+ String "010" ""] |}.

Definition SystemExit : pyexception :=
  {| exc_root_of := FromKeyboardInterruptOrSystemExit;
     exc_type_name := "SystemExit";
     exc_value_str := "0";
     exc_trace_lines := [] |}.

Definition RuntimeError : pyexception :=
  {| exc_root_of := FromException;
     exc_type_name := "RuntimeError";
     exc_value_str := "planet out of orbit";
     exc_trace_lines := [] |}.

Definition str_nat (n : nat) : string :=
  DecimalString.NilZero.string_of_uint (Nat.to_uint n).

#[export] Instance deployment : Collaborators := {|
  World := world;
  User := string;
  Args := gmap string string;
  Value := string;
  Attr := attr;
  get_user_by_auth_cookie := λ w cookie, sessions w !! cookie;
  create_new_session := λ w,
    ({| time := time w;
        sessions := <["fresh" := "guest"]> (sessions w);
        renewed := renewed w |},
     ("fresh", "guest"));
  renew_session := λ w cookie,
    {| time := time w; sessions := sessions w; renewed := renewed w ++ [cookie] |};
  is_guest := λ _ u, bool_decide (u = "guest");
  sim := λ w,
    if Nat.ltb (time w) 2
    then ({| time := S (time w); sessions := sessions w; renewed := renewed w |},
          Returned tt)
    else (w, Raised RuntimeError);
  get_time_str := λ w, str_nat (time w);
  controller_getattr := λ _ method command,
    if bool_decide (method = "GET") then
      if bool_decide (command = "whoami") then Some whoami
      else if bool_decide (command = "build") then Some build
      else if bool_decide (command = "broken") then Some broken
      else if bool_decide (command = "leave") then Some leave
      else None
    else None;
  is_public := λ f, match f with whoami => true | _ => false end;
  call := λ f w u cookie a,
    match f with
    | whoami => (w, Returned u)
    | build => (w, Returned "built")
    | broken => (w, Raised ValueError)
    | leave => (w, Raised SystemExit)
    end;
  create_request_string := λ method command _ client_ip,
    client_ip +:+ " " +:+ method +:+ " " +:+ command;
  SERVER_HOST := "localhost";
  str_SERVER_PORT := "3492"
|}.

(** A server on a game at tick [t], with a session of alice. *)
Definition server_at (t : nat) (queue : list work_item) : server :=
  {| game := {| time := t; sessions := {[ "alice-cookie" := "alice" ]}; renewed := [] |};
     request_queue := queue;
     response_queues := ∅;
     log := [];
     calls := [];
     http_server_running := true;
     logfiles_closed := false |}.

(** The exception of a write of a [str], and a file system with one
    file. *)
Definition write_TypeError : pyexception :=
  {| exc_root_of := FromException;
     exc_type_name := "TypeError";
     exc_value_str := "a bytes-like object is required, not 'str'";
     exc_trace_lines := [] |}.

Definition one_file (path : string) : outcome string :=
  if bool_decide (path = "static/js/../../zandagort.py")
  then Returned "import errno"
  else Raised RuntimeError.

End Sample.

(** ** The request handler: routing, static files and the response *)

(** [s.lstrip(c)] for one character. *)
Fixpoint lstrip (c : ascii) (s : string) : string :=
  match s with
  | EmptyString => EmptyString
  | String d s' => if Ascii.eqb d c then lstrip c s' else s
  end.

(** [s[n:]] and [s[:n]] *)
Fixpoint string_drop (n : nat) (s : string) : string :=
  match n, s with
  | 0, _ => s
  | S _, EmptyString => EmptyString
  | S n', String _ s' => string_drop n' s'
  end.

Fixpoint string_take (n : nat) (s : string) : string :=
  match n, s with
  | 0, _ => EmptyString
  | S _, EmptyString => EmptyString
  | S n', String c s' => String c (string_take n' s')
  end.

(** [s.index(c)]; [None] is the [ValueError] of a character that does not
    occur. *)
Fixpoint index (c : ascii) (s : string) : option nat :=
  match s with
  | EmptyString => None
  | String d s' => if Ascii.eqb d c then Some 0 else S <$> index c s'
  end.

(** [str(n)] for a length. *)
Definition str_of_nat (n : nat) : string :=
  DecimalString.NilZero.string_of_uint (Nat.to_uint n).

(** The choice of the content type in [_send_static_file]: the one that is
    given, or the one of the directory that the file name starts with. *)
Definition static_content_type (filename : string) (content_type : option string)
    : string :=
  match content_type with
  | Some given => given
  | None =>
      let file_type :=
        match index "/" filename with
        | Some i => string_take i filename
        | None => "?"
        end in
      if String.eqb file_type "js" then "text/javascript"
      else if String.eqb file_type "css" then "text/css"
      else "text/html"
  end.

(** What [do_GET] does with a URL, before anything is sent: a static file is
    sent, or a request goes to the core server. *)
Inductive route :=
  | StaticFile (filename : string) (content_type : option string)
  | CoreRequest (method command : string) (arguments : arguments (gmap string string)).

(** [do_GET] up to the call of [_get_response]; [url_path] and [url_query]
    are the two parts of [urlparse(self.path)] that it reads.  The [except]
    clause around [_parse_qs_flat] gives the marker. *)
Definition do_GET_route (percent_decode : string → string)
    (url_path url_query : string) : route :=
  let command := lstrip "/" url_path in
  if bool_decide (command = "test" ∨ command = "test/") then
    StaticFile "html/test.html" None
  else if String.prefix "static/" command then
    StaticFile (string_drop 7 command) None
  else if bool_decide (command = "favicon.ico") then
    StaticFile "img/favicon.ico" (Some "image/x-icon")
  else
    CoreRequest "GET" command
      match QueryString._parse_qs_flat percent_decode url_query with
      | Some flat_query_dict => ArgValue flat_query_dict
      | None => ArgError ArgumentSyntaxError
      end.

Section RequestHandler.
Context `{Collaborators}.

(** [config.AUTH_COOKIE_NAME] and [config.AUTH_COOKIE_EXPIRY] *)
Variable AUTH_COOKIE_NAME : string.
Variable AUTH_COOKIE_EXPIRY : Z.
(** [json.dumps] of a response dictionary, which raises for an object that
    it cannot serialize *)
Variable json_dumps : gmap string field → outcome string.
(** [v is None] and [v == ""] for a response object *)
Variable is_None : Value → bool.
Variable equals_empty_str : Value → bool.
(** opening and reading a file *)
Variable read_file : string → outcome string.
(** the [TypeError] that [self.wfile.write] raises when it is given a [str] *)
Variable write_str_TypeError : pyexception.

(** What a request handler sends, call by call.  [send_cookie] is
    [_send_cookie], whose header has the time of the wall clock in it. *)
Inductive http_out :=
  | send_response (code : nat)
  | send_header (keyword value : string)
  | send_cookie (cookie_key : string) (cookie_value : field)
      (expires_from_now : Z) (path : string)
  | end_headers
  | wfile_write (text : string).

(** The first argument of [_send_response]: the content of a file, sent raw,
    or the dictionary of the core server. *)
Inductive payload :=
  | Raw (content : string)
  | Json (response : gmap string field).

(** [auth_cookie_value == ""] *)
Definition is_empty_cookie (auth_cookie_value : field) : bool :=
  match auth_cookie_value with
  | FStr s => bool_decide (s = "")
  | FValue v => equals_empty_str v
  end.

Definition is_None_cookie (auth_cookie_value : field) : bool :=
  match auth_cookie_value with
  | FStr _ => false
  | FValue v => is_None v
  end.

(** The calls of [_send_response] up to [end_headers], once the text of the
    response is there. *)
Definition send_headers (auth_cookie_value : option field)
    (response_text content_type : string) : list http_out :=
  [send_response 200;
   send_header "Content-type" (content_type +:+ "; charset=utf-8");
   send_header "Content-length" (str_of_nat (String.length response_text))]
  ++ match auth_cookie_value with
     | None => []
     | Some cookie =>
         if is_None_cookie cookie then []
         else if is_empty_cookie cookie
         then [send_cookie AUTH_COOKIE_NAME cookie (-3600) "/"]
         else [send_cookie AUTH_COOKIE_NAME cookie AUTH_COOKIE_EXPIRY "/"]
     end
  ++ [end_headers].

(** [_send_response]: what is sent, and how the call ends.  The content of a
    file is bytes, which [self.wfile.write] takes; the text that [json.dumps]
    returns is a [str], for which [self.wfile.write] raises a [TypeError],
    after the headers. *)
Definition _send_response (response : payload) (content_type : string)
    : list http_out * outcome unit :=
  match response with
  | Raw content =>
      (send_headers None content content_type ++ [wfile_write content], Returned tt)
  | Json response =>
      let auth_cookie_value := response !! "auth_cookie_value" in
      match json_dumps (delete "auth_cookie_value" response) with
      | Raised e => ([], Raised e)
      | Returned response_text =>
          (send_headers auth_cookie_value response_text content_type,
           Raised write_str_TypeError)
      end
  end.

Definition _send_static_file (filename : string) (content_type : option string)
    : list http_out * outcome unit :=
  let content_type := static_content_type filename content_type in
  match read_file ("static/" +:+ filename) with
  | Raised e => ([], Raised e)
  | Returned content => _send_response (Raw content) content_type
  end.

End RequestHandler.

(** ** [galaxy.py] *)

Module Galaxy.
Section Galaxy.

(** A planet of [planet.Planet], the planet that the n-th call of
    [planet.Planet(config.PlanetClasses.B)] makes, and [Planet.sim]. *)
Variable Planet : Type.
Variable new_planet : nat → Planet.
Variable planet_sim : Planet → Planet * outcome unit.
(** [config.NUMBER_OF_PLANETS] *)
Variable NUMBER_OF_PLANETS : Z.

(** [range(n)] *)
Definition range (n : Z) : list nat := seq 0 (Z.to_nat n).

(** [Galaxy.__init__]: the list of planets. *)
Definition __init__ : list Planet :=
  foldl (λ _planets _, _planets ++ [new_planet (List.length _planets)]) []
        (range NUMBER_OF_PLANETS).

(** [Galaxy.sim]: the planets are simulated in order, in place; an exception
    of one of them ends the loop. *)
Fixpoint sim (_planets : list Planet) : list Planet * outcome unit :=
  match _planets with
  | [] => ([], Returned tt)
  | planet_n :: rest =>
      let '(planet_n, r) := planet_sim planet_n in
      match r with
      | Raised e => (planet_n :: rest, Raised e)
      | Returned _ => let '(rest, r) := sim rest in (planet_n :: rest, r)
      end
  end.

End Galaxy.
End Galaxy.

(** * Properties *)

(** ** The query parser *)

Section QueryStringFacts.
Import QueryString.
Variable percent_decode : string → string.

Lemma values_of_cons key (p : string * string) pairs :
  values_of key (p :: pairs)
  = if decide (p.1 = key) then p.2 :: values_of key pairs else values_of key pairs.
Proof.
  unfold values_of. rewrite filter_cons. by destruct (decide (p.1 = key)).
Qed.

(** The dictionary of [parse_qs] holds, for a name, the values that the
    fields of the query give to it, in their order. *)
Lemma parse_qs_loop_lookup pairs (parsed_result : gmap string (list string)) key :
  foldl parse_qs_add parsed_result pairs !! key
  = match parsed_result !! key with
    | Some values => Some (values ++ values_of key pairs)
    | None => match values_of key pairs with [] => None | vs => Some vs end
    end.
Proof.
  revert parsed_result.
  induction pairs as [|p pairs IH]; intros parsed_result; simpl.
  - destruct (parsed_result !! key); by rewrite ?app_nil_r.
  - rewrite IH, values_of_cons. unfold parse_qs_add.
    destruct (decide (p.1 = key)) as [<-|Hne].
    + destruct (parsed_result !! p.1) as [values|] eqn:Hl;
        rewrite lookup_insert_eq; [by rewrite <- app_assoc | done].
    + destruct (parsed_result !! p.1);
        by rewrite lookup_insert_ne.
Qed.

Lemma parse_qs_lookup query key :
  parse_qs percent_decode query !! key
  = match values_of key (parse_qsl percent_decode query) with
    | [] => None
    | vs => Some vs
    end.
Proof. unfold parse_qs. by rewrite parse_qs_loop_lookup, lookup_empty. Qed.

Lemma parse_qs_nonempty query :
  map_Forall (λ _ values, values ≠ []) (parse_qs percent_decode query).
Proof.
  intros key values. rewrite parse_qs_lookup.
  destruct (values_of key _); [done | by intros [= <-]].
Qed.

(** The loop of [_parse_qs_flat] on the items of a dictionary without an
    empty list. *)
Lemma flatten_items_lookup items (acc : gmap string string) :
  NoDup items.*1 → Forall (λ item, item.2 ≠ []) items →
  ∃ flat, flatten_items items acc = Some flat ∧
    ∀ key, flat !! key
           = match (list_to_map items : gmap string (list string)) !! key with
             | Some deep_value => head deep_value
             | None => acc !! key
             end.
Proof.
  revert acc. induction items as [|[k deep_value] items IH]; intros acc Hnd Hne.
  - exists acc. split; [done|]. intros key. simpl. by rewrite lookup_empty.
  - apply NoDup_cons in Hnd as [Hk Hnd]. apply Forall_cons in Hne as [Hv Hne].
    destruct deep_value as [|first others]; [done|]. simpl.
    destruct (IH (<[k := first]> acc) Hnd Hne) as (flat & -> & Hflat).
    exists flat. split; [done|]. intros key. rewrite Hflat.
    destruct (decide (k = key)) as [->|Hkk].
    + rewrite lookup_insert_eq.
      by rewrite (not_elem_of_list_to_map_1 _ _ Hk), lookup_insert_eq.
    + by rewrite !(lookup_insert_ne _ _ _ _ Hkk).
Qed.

(** C10.  For every query string [_parse_qs_flat] returns (it does not raise
    the [IndexError] of [deep_value[0]]) a dictionary of strings that has,
    for each key of [parse_qs(query)], the first value of the key's list:
    the value of the first field of the query with that name.  Later
    occurrences of a key are dropped: ['q=a&q=b'] gives ["q": "a"]. *)
Theorem parse_qs_flat_first_value (query : string) :
  ∃ flat_query_dict : gmap string string,
    _parse_qs_flat percent_decode query = Some flat_query_dict ∧
    (∀ key, flat_query_dict !! key = parse_qs percent_decode query !! key ≫= head) ∧
    (∀ key, flat_query_dict !! key
            = head (values_of key (parse_qsl percent_decode query))) ∧
    _parse_qs_flat percent_decode "q=a&q=b" = Some {[ "q" := "a" ]}.
Proof.
  unfold _parse_qs_flat.
  destruct (flatten_items_lookup (map_to_list (parse_qs percent_decode query)) ∅)
    as (flat & Hflat & Hlookup).
  { apply NoDup_fst_map_to_list. }
  { apply Forall_forall. intros [key values] Hin. simpl.
    apply elem_of_map_to_list in Hin.
    by apply (parse_qs_nonempty query key values). }
  assert (Hdeep : ∀ key,
    flat !! key = parse_qs percent_decode query !! key ≫= head).
  { intros key. rewrite Hlookup, list_to_map_to_list.
    destruct (parse_qs percent_decode query !! key); [done|].
    by rewrite lookup_empty. }
  exists flat. split; [done|]. split; [done|]. split; [|by vm_compute].
  intros key. rewrite Hdeep, parse_qs_lookup.
  by destruct (values_of key _).
Qed.

End QueryStringFacts.

(** ** The core server *)

Section ServerFacts.
Context `{Collaborators}.

Lemma server_eta (s : server) :
  s = {| game := game s; request_queue := request_queue s;
         response_queues := response_queues s; log := log s; calls := calls s;
         http_server_running := http_server_running s;
         logfiles_closed := logfiles_closed s |}.
Proof. by destruct s. Qed.

(** *** Inner commands *)

(** C8.  [Dump] leaves the game as it is, puts nothing on a response queue
    and calls no collaborator: it writes its two lines to the system channel.
    [Sim] calls [sim] once, and when that returns the game is the one after
    the tick and one line with the new game time is written. *)
Theorem dump_logs_only_sim_ticks_once (s : server) :
  (∃ s', _execute_inner_command s (Member Dump) = (s', Returned tt) ∧
     game s' = game s ∧
     response_queues s' = response_queues s ∧
     request_queue s' = request_queue s ∧
     calls s' = calls s ∧
     log s' = log s ++
       [{| logtype := "sys"; message := "[InnerCommands.Dump] Dumping..."; raw := false |};
        {| logtype := "sys"; message := "[InnerCommands.Dump] Dumped."; raw := false |}]) ∧
  (∀ g, sim (game s) = (g, Returned tt) →
     ∃ s', _execute_inner_command s (Member Sim) = (s', Returned tt) ∧
       game s' = g ∧
       response_queues s' = response_queues s ∧
       calls s' = calls s ++ [CallSim] ∧
       log s' = log s ++
         [{| logtype := "sys";
             message := "[InnerCommands.Sim] game time = " +:+ get_time_str g;
             raw := false |}]).
Proof.
  split.
  - eexists. split; [reflexivity|]. simpl. by rewrite <- app_assoc.
  - intros g Hsim. unfold _execute_inner_command. rewrite Hsim.
    eexists. split; [reflexivity|]. done.
Qed.

(** *** The cron thread *)

(** C9.  [_cron_fun] appends one item to the request queue, the dictionary
    with the inner command alone, which has no response queue, and leaves
    the game, the log and the response queues as they are.  When the loop
    takes such an item it runs [_execute_inner_command] on it, and no
    response queue changes. *)
Theorem cron_only_enqueues_inner_command (s : server) (command : inner_command) :
  request_queue (_cron_fun s command) = request_queue s ++ [InnerItem command] ∧
  has_inner_command (InnerItem command) = true ∧
  (∀ q m c a cookie ip, InnerItem command ≠ ClientItem q m c a cookie ip) ∧
  game (_cron_fun s command) = game s ∧
  calls (_cron_fun s command) = calls s ∧
  log (_cron_fun s command) = log s ∧
  response_queues (_cron_fun s command) = response_queues s ∧
  (∀ rest,
     loop_body (set_request_queue (InnerItem command :: rest) s)
     = _execute_inner_command (set_request_queue rest s) command) ∧
  (∀ rest,
     response_queues (loop_body (set_request_queue (InnerItem command :: rest) s)).1
     = response_queues s).
Proof.
  repeat split; try done.
  intros rest. unfold loop_body. simpl.
  destruct command as [[|]|repr]; simpl; try done.
  by destruct (sim (game s)) as [g [[]|e]].
Qed.

(** *** Client requests *)

Lemma log_trace_lines_eq (lines : list string) (s : server) :
  foldl (λ s trace_line, _log_error s ("    " +:+ rstrip trace_line) true) s lines
  = {| game := game s; request_queue := request_queue s;
       response_queues := response_queues s;
       log := log s ++
         ((λ trace_line,
             {| logtype := "error"; message := "    " +:+ rstrip trace_line;
                raw := true |}) <$> lines);
       calls := calls s;
       http_server_running := http_server_running s;
       logfiles_closed := logfiles_closed s |}.
Proof.
  revert s. induction lines as [|line lines IH]; intros s; simpl.
  - rewrite app_nil_r. apply server_eta.
  - rewrite IH. simpl. by rewrite <- app_assoc.
Qed.

Lemma log_exception_eq (s : server) (request_string : string) (e : pyexception) :
  log_exception s request_string e
  = {| game := game s; request_queue := request_queue s;
       response_queues := response_queues s;
       log := log s ++
         {| logtype := "error";
            message := request_string +:+ " ! " +:+ exc_type_name e +:+ ": "
                         +:+ exc_value_str e;
            raw := false |} :: trace_log_lines e;
       calls := calls s;
       http_server_running := http_server_running s;
       logfiles_closed := logfiles_closed s |}.
Proof.
  unfold log_exception, trace_log_lines. rewrite log_trace_lines_eq. simpl.
  by rewrite <- app_assoc.
Qed.

(** What [resolve_identity] does: the calls it makes, the cookie and the game
    that result. *)
Lemma resolve_identity_eq (s : server) (cookie : string) :
  resolve_identity s cookie
  = match get_user_by_auth_cookie (game s) cookie with
    | Some u =>
        (set_game (renew_session (game s) cookie)
           (note (CallRenewSession cookie) (note (CallGetUser cookie) s)),
         cookie, u)
    | None =>
        let '(g, (new_cookie, new_user)) := create_new_session (game s) in
        (set_game (renew_session g new_cookie)
           (note (CallRenewSession new_cookie)
              (note CallCreateSession (note (CallGetUser cookie) s))),
         new_cookie, new_user)
    end.
Proof.
  unfold resolve_identity.
  destruct (get_user_by_auth_cookie (game s) cookie); [done|]. simpl.
  by destruct (create_new_session (game s)) as [g [new_cookie new_user]].
Qed.

Lemma resolve_identity_frame (s s1 : server) (cookie cookie1 : string) (u : User) :
  resolve_identity s cookie = (s1, cookie1, u) →
  request_queue s1 = request_queue s ∧
  response_queues s1 = response_queues s ∧
  log s1 = log s.
Proof.
  rewrite resolve_identity_eq.
  destruct (get_user_by_auth_cookie (game s) cookie).
  - by intros [= <- <- <-].
  - destruct (create_new_session (game s)) as [g [new_cookie new_user]].
    by intros [= <- <- <-].
Qed.

(** [_execute_client_request] returns a response when the function it calls
    raises nothing but errors, and it leaves the queues alone. *)
Lemma execute_client_request_returns (s : server) (method command : string)
    (a : arguments Args) (cookie client_ip : string) :
  (∀ w f, controller_getattr w method command = Some f → raises_only_errors f) →
  ∃ s' response,
    _execute_client_request s method command a cookie client_ip
    = (s', Returned response) ∧
    request_queue s' = request_queue s ∧
    response_queues s' = response_queues s.
Proof.
  intros Herr. unfold _execute_client_request.
  destruct (resolve_identity s cookie) as [[s1 cookie1] u] eqn:Hres.
  destruct (resolve_identity_frame _ _ _ _ _ Hres) as (Hq & Hr & _).
  destruct (bool_decide (method ∈ ["GET"; "POST"])); simpl;
    [|by eexists _, _].
  destruct (controller_getattr (game s1) method command) as [f|] eqn:Hf;
    [|by eexists _, _].
  destruct a as [[]|a]; [by eexists _, _|].
  destruct (is_public f); simpl.
  - destruct (call f (game s1) u cookie1 a) as [g [v|e]] eqn:Hcall.
    + by eexists _, _.
    + rewrite (Herr _ _ Hf _ _ _ _ _ _ Hcall), log_exception_eq. by eexists _, _.
  - destruct (is_guest (game s1) u); [by eexists _, _|]. simpl.
    destruct (call f (game s1) u cookie1 a) as [g [v|e]] eqn:Hcall.
    + by eexists _, _.
    + rewrite (Herr _ _ Hf _ _ _ _ _ _ Hcall), log_exception_eq. by eexists _, _.
Qed.

(** C1, as the code has it.  When the loop takes a client request from the
    queue, and the controller function that the request names raises nothing
    but errors
    (exceptions that derive from [Exception]), [_execute_client_request]
    returns a response, whatever the method, the command, the arguments, the
    cookie and the address are, and the turn of the loop puts that response
    on the request's response queue, once: the queue is what it was with the
    response at its end, the other queues are as they were, and the next item
    is taken after that. *)
Theorem client_request_answered_once (s : server) (response_queue : nat)
    (method command : string) (a : arguments Args) (cookie client_ip : string)
    (rest : list work_item) :
  request_queue s = ClientItem response_queue method command a cookie client_ip :: rest →
  (∀ w f, controller_getattr w method command = Some f → raises_only_errors f) →
  ∃ s' response,
    _execute_client_request (set_request_queue rest s) method command a cookie client_ip
    = (s', Returned response) ∧
    loop_body s = (put response_queue response s', Returned tt) ∧
    response_queues (put response_queue response s') !! response_queue
    = Some (default [] (response_queues s !! response_queue) ++ [response]) ∧
    (∀ other, other ≠ response_queue →
       response_queues (put response_queue response s') !! other
       = response_queues s !! other) ∧
    request_queue (put response_queue response s') = rest ∧
    ∀ schedule,
      serve_forever s (Turn :: schedule)
      = serve_forever (put response_queue response s') schedule.
Proof.
  intros Hqueue Herr.
  destruct (execute_client_request_returns (set_request_queue rest s)
              method command a cookie client_ip Herr)
    as (s' & response & Hexec & Hq & Hr).
  simpl in Hq, Hr.
  assert (Hbody : loop_body s = (put response_queue response s', Returned tt)).
  { unfold loop_body. by rewrite Hqueue, Hexec. }
  exists s', response. split; [done|]. split; [done|].
  split; [|split; [|split]].
  - unfold put. simpl. by rewrite lookup_insert_eq, Hr.
  - intros other Hother. unfold put. simpl. by rewrite lookup_insert_ne, Hr.
  - done.
  - intros schedule. simpl. by rewrite Hbody.
Qed.


Lemma channel_trace_log_lines (name : string) (e : pyexception) :
  name ≠ "error" → channel name (trace_log_lines e) = [].
Proof.
  intros Hname. unfold channel, trace_log_lines.
  induction (exc_trace_lines e) as [|line lines IH]; [done|].
  rewrite fmap_cons, filter_cons_False; [done|]. simpl. congruence.
Qed.

(** C4.  When the function that a request resolves to raises an error, the
    request is answered with the failure response whose error string is the
    name of the exception's type, a colon and its message, and the lines
    written for it, the request line and the lines of the traceback, all go
    to the error channel: the access and the system channel are as they
    were, and the traceback is no part of the response. *)
Theorem handler_error_logged_not_leaked (s s1 : server) (method command : string)
    (a : Args) (cookie cookie1 client_ip : string) (u : User) (f : Attr)
    (g : World) (e : pyexception) :
  resolve_identity s cookie = (s1, cookie1, u) →
  method ∈ ["GET"; "POST"] →
  controller_getattr (game s1) method command = Some f →
  is_public f = true ∨ is_guest (game s1) u = false →
  call f (game s1) u cookie1 a = (g, Raised e) →
  isinstance_Exception e = true →
  ∃ s',
    _execute_client_request s method command (ArgValue a) cookie client_ip
    = (s', Returned (error_response (exc_type_name e +:+ ": " +:+ exc_value_str e)
                       cookie1)) ∧
    log s' = log s ++
      {| logtype := "error";
         message := create_request_string method command (ArgValue a) client_ip
                      +:+ " ! " +:+ exc_type_name e +:+ ": " +:+ exc_value_str e;
         raw := false |} :: trace_log_lines e ∧
    channel "access" (log s') = channel "access" (log s) ∧
    channel "sys" (log s') = channel "sys" (log s).
Proof.
  intros Hres Hmethod Hf Hallowed Hcall Hexc.
  destruct (resolve_identity_frame _ _ _ _ _ Hres) as (_ & _ & Hlog).
  unfold _execute_client_request. rewrite Hres.
  rewrite (bool_decide_eq_true_2 _ Hmethod). simpl. rewrite Hf.
  assert (Hgo :
    (let '(s2, guest) :=
       if is_public f then (s1, false)
       else (note CallIsGuest s1, is_guest (game s1) u) in
     game s2 = game s1 ∧ log s2 = log s1 ∧ guest = false)).
  { destruct Hallowed as [-> | Hguest]; [done|].
    destruct (is_public f); [done|]. by rewrite Hguest. }
  destruct (if is_public f then (s1, false)
            else (note CallIsGuest s1, is_guest (game s1) u))
    as [s2 guest].
  destruct Hgo as (Hgame & Hlog2 & ->).
  rewrite Hgame, Hcall, Hexc, log_exception_eq.
  eexists. split; [reflexivity|]. simpl. rewrite Hlog2, Hlog.
  split; [done|].
  unfold channel at 1 3. rewrite !filter_app, !filter_cons_False by (simpl; congruence).
  fold (channel "access" (trace_log_lines e)).
  fold (channel "sys" (trace_log_lines e)).
  by rewrite !channel_trace_log_lines, !app_nil_r.
Qed.

(** C3, as the code has it.  The command of a GET or POST request is
    resolved before its arguments are looked at.  When the arguments are the
    [ArgumentSyntaxError] marker and the command resolves, the request is
    answered with the syntax error response, whoever asks and whatever the
    function is, the function is not called, and the line on the error
    channel is the request string followed by the failure; when the command
    does not resolve, the answer is the unknown command response. *)
Theorem syntax_error_after_command_resolution (s s1 : server)
    (method command cookie cookie1 client_ip : string) (u : User) :
  resolve_identity s cookie = (s1, cookie1, u) →
  method ∈ ["GET"; "POST"] →
  _execute_client_request s method command (ArgError ArgumentSyntaxError)
    cookie client_ip
  = match controller_getattr (game s1) method command with
    | Some _ =>
        (_log_error s1
           (create_request_string method command (ArgError ArgumentSyntaxError)
              client_ip +:+ " ! Syntax error in arguments") false,
         Returned (error_response "Syntax error in arguments" cookie1))
    | None =>
        (_log_error s1
           (create_request_string method command (ArgError ArgumentSyntaxError)
              client_ip +:+ " ! Unknown command") false,
         Returned (error_response "Unknown command" cookie1))
    end.
Proof.
  intros Hres Hmethod.
  unfold _execute_client_request. rewrite Hres.
  rewrite (bool_decide_eq_true_2 _ Hmethod). simpl.
  by destruct (controller_getattr (game s1) method command).
Qed.

(** C5, as the code has it.  A GET or POST request whose command resolves to
    a function that is not public, and whose arguments are not the
    [ArgumentSyntaxError] marker, is answered with the access denied response
    when the resolved user is a guest: the function is not called and the
    game is as identity resolution left it.  When the user is no guest the
    function is called, and the answer is made of what the call gives. *)
Theorem guest_denied_on_non_public (s s1 : server) (method command : string)
    (a : Args) (cookie cookie1 client_ip : string) (u : User) (f : Attr) :
  resolve_identity s cookie = (s1, cookie1, u) →
  method ∈ ["GET"; "POST"] →
  controller_getattr (game s1) method command = Some f →
  is_public f = false →
  let result :=
    _execute_client_request s method command (ArgValue a) cookie client_ip in
  if is_guest (game s1) u then
    result
    = (_log_error (note CallIsGuest s1)
         (create_request_string method command (ArgValue a) client_ip
            +:+ " ! Access denied. You have to login.") false,
       Returned (error_response "Access denied. You have to login." cookie1)) ∧
    calls result.1 = calls s1 ++ [CallIsGuest] ∧
    game result.1 = game s1
  else
    calls result.1 = calls s1 ++ [CallIsGuest; CallController method command] ∧
    game result.1 = (call f (game s1) u cookie1 a).1 ∧
    result.2
    = match (call f (game s1) u cookie1 a).2 with
      | Returned response => Returned (success_response response cookie1)
      | Raised e =>
          if isinstance_Exception e
          then Returned (error_response
                           (exc_type_name e +:+ ": " +:+ exc_value_str e) cookie1)
          else Raised e
      end.
Proof.
  intros Hres Hmethod Hf Hpublic result. subst result.
  unfold _execute_client_request. rewrite Hres.
  rewrite (bool_decide_eq_true_2 _ Hmethod). simpl. rewrite Hf, Hpublic.
  destruct (is_guest (game s1) u); [done|]. simpl.
  destruct (call f (game s1) u cookie1 a) as [g [v|e]]; simpl.
  - by rewrite <- app_assoc.
  - destruct (isinstance_Exception e); simpl.
    + rewrite log_exception_eq. simpl. by rewrite <- app_assoc.
    + by rewrite <- app_assoc.
Qed.

Lemma response_cookie (cookie : string) :
  (∀ error, error_response error cookie !! "auth_cookie_value" = Some (FStr cookie)) ∧
  (∀ v, success_response v cookie !! "auth_cookie_value" = Some (FStr cookie)).
Proof.
  split; intros x; unfold error_response, success_response;
    (rewrite lookup_insert_ne by done); apply lookup_insert_eq.
Qed.

(** After identity resolution: the calls already made stay in front, and
    what is returned has the resolved cookie. *)
Lemma execute_client_request_cookie (s s1 : server) (method command : string)
    (a : arguments Args) (cookie cookie1 client_ip : string) (u : User) :
  resolve_identity s cookie = (s1, cookie1, u) →
  let result := _execute_client_request s method command a cookie client_ip in
  (∃ later, calls result.1 = calls s1 ++ later) ∧
  match result.2 with
  | Returned response => response !! "auth_cookie_value" = Some (FStr cookie1)
  | Raised e => isinstance_Exception e = false
  end.
Proof.
  intros Hres result. subst result.
  destruct (response_cookie cookie1) as [Herror Hsuccess].
  unfold _execute_client_request. rewrite Hres.
  destruct (bool_decide (method ∈ ["GET"; "POST"])); simpl;
    [|split; [by exists [] ; rewrite app_nil_r | done]].
  destruct (controller_getattr (game s1) method command) as [f|];
    [|split; [by exists [] ; rewrite app_nil_r | done]].
  destruct a as [[]|a]; [split; [by exists [] ; rewrite app_nil_r | done]|].
  destruct (is_public f); simpl.
  - destruct (call f (game s1) u cookie1 a) as [g [v|e]]; simpl.
    + split; [by eexists | done].
    + destruct (isinstance_Exception e) eqn:He; simpl.
      * rewrite log_exception_eq. simpl. split; [by eexists | done].
      * split; [by eexists | done].
  - destruct (is_guest (game s1) u); simpl; [split; [by eexists | done]|].
    destruct (call f (game s1) u cookie1 a) as [g [v|e]]; simpl.
    + split; [by eexists; rewrite <- app_assoc | done].
    + destruct (isinstance_Exception e) eqn:He; simpl.
      * rewrite log_exception_eq. simpl.
        split; [by eexists; rewrite <- app_assoc | done].
      * split; [by eexists; rewrite <- app_assoc | done].
Qed.

(** C6.  The first calls that [_execute_client_request] makes are those of
    identity resolution: the cookie is looked up, a new session is made when
    it has no user, and the session of the cookie that results, the given or
    the new one, is renewed in either case.  Every response that is returned,
    the success and each of the failures, has that cookie under
    ["auth_cookie_value"]. *)
Theorem identity_resolved_first_cookie_returned (s : server)
    (method command : string) (a : arguments Args) (cookie client_ip : string) :
  let found := get_user_by_auth_cookie (game s) cookie in
  let created := create_new_session (game s) in
  let cookie1 := match found with Some _ => cookie | None => created.2.1 end in
  let resolved := resolve_identity s cookie in
  let result := _execute_client_request s method command a cookie client_ip in
  resolved.1.2 = cookie1 ∧
  resolved.2 = match found with Some u => u | None => created.2.2 end ∧
  game resolved.1.1
  = renew_session (match found with Some _ => game s | None => created.1 end) cookie1 ∧
  (∃ later,
     calls result.1
     = calls s
       ++ CallGetUser cookie
          :: match found with Some _ => [] | None => [CallCreateSession] end
       ++ CallRenewSession cookie1 :: later) ∧
  match result.2 with
  | Returned response => response !! "auth_cookie_value" = Some (FStr cookie1)
  | Raised e => isinstance_Exception e = false
  end.
Proof.
  intros found created cookie1 resolved result.
  assert (Hres : resolved
    = (set_game
         (renew_session (match found with Some _ => game s | None => created.1 end)
            cookie1)
         (note (CallRenewSession cookie1)
            (match found with
             | Some _ => note (CallGetUser cookie) s
             | None => note CallCreateSession (note (CallGetUser cookie) s)
             end)),
       cookie1,
       match found with Some u => u | None => created.2.2 end)).
  { subst resolved cookie1 found created. rewrite resolve_identity_eq.
    destruct (get_user_by_auth_cookie (game s) cookie); [done|].
    by destruct (create_new_session (game s)) as [g [new_cookie new_user]]. }
  split; [by rewrite Hres|]. split; [by rewrite Hres|]. split; [by rewrite Hres|].
  destruct (execute_client_request_cookie s _ method command a cookie cookie1
              client_ip _ Hres) as [[later Hlater] Hcookie].
  split; [|done].
  exists later. subst result. rewrite Hlater. simpl.
  destruct found; simpl; by rewrite <- !app_assoc.
Qed.

(** *** Startup *)

(** C7.  A [socket.error] from the construction of the server aborts [main]
    before the server is started.  The message that names the port is
    printed for [EACCES]; the error "address already in use" is raised again,
    as an error with any other number is. *)
Theorem main_address_in_use_is_reraised (serr : pyexception) (schedule : list event) :
  main (SocketError EADDRINUSE serr) schedule
  = (["Launching Zandagort Server..."], RaisedBeforeStart serr) ∧
  main (SocketError EADDRINUSE serr) schedule = main (SocketError 99 serr) schedule ∧
  (∀ errno, (main (SocketError errno serr) schedule).2
            = if bool_decide (errno = EACCES) then ReturnedBeforeStart
              else RaisedBeforeStart serr) ∧
  main (SocketError EACCES serr) schedule
  = (["Launching Zandagort Server...";
      "[ERROR] port " +:+ str_SERVER_PORT +:+ " already used by some other service.";
      "Change it in config.py"],
     ReturnedBeforeStart).
Proof.
  split; [done|]. split; [done|]. split; [|done].
  intros errno. unfold main. by destruct (bool_decide (errno = EACCES)).
Qed.

End ServerFacts.

(** ** The theorems on the small deployment *)

Section OnSample.
Import Sample.

Lemma GET_is_a_method : "GET" ∈ ["GET"; "POST"].
Proof. apply list_elem_of_here. Defined.

(** The request of a logged in user to the function that raises a
    [ValueError] is answered once, with a response. *)
Lemma client_request_answered_once_witness :
  let s := server_at 0 [ClientItem 7 "GET" "broken" (ArgValue ∅) "alice-cookie" "10.0.0.1"] in
  ∃ s' response,
    _execute_client_request (set_request_queue [] s) "GET" "broken" (ArgValue ∅)
      "alice-cookie" "10.0.0.1"
    = (s', Returned response) ∧
    loop_body s = (put 7 response s', Returned tt) ∧
    response_queues (put 7 response s') !! 7
    = Some (default [] (response_queues s !! 7) ++ [response]) ∧
    (∀ other, other ≠ 7 →
       response_queues (put 7 response s') !! other = response_queues s !! other) ∧
    request_queue (put 7 response s') = [] ∧
    ∀ schedule,
      serve_forever s (Turn :: schedule) = serve_forever (put 7 response s') schedule.
Proof.
  intros s.
  apply (client_request_answered_once s 7 "GET" "broken" (ArgValue ∅)
           "alice-cookie" "10.0.0.1" []).
  - reflexivity.
  - intros w f Hf. vm_compute in Hf. injection Hf as <-.
    intros w1 u cookie a w' e Hcall. simpl in Hcall.
    injection Hcall as _ <-. reflexivity.
Defined.

(** C1, on a request to the function that raises [SystemExit]: the
    exception is not one that [except Exception] catches, so
    [_execute_client_request] returns no response, nothing is put on the
    response queue of the request, and the loop ends with the shutdown of
    the server. *)
Lemma system_exit_shuts_down_without_reply :
  (_execute_client_request (server_at 0 []) "GET" "leave" (ArgValue ∅)
     "alice-cookie" "10.0.0.1").2 = Raised SystemExit ∧
  (loop_body
     (server_at 0 [ClientItem 7 "GET" "leave" (ArgValue ∅) "alice-cookie" "10.0.0.1"])).2
  = Raised SystemExit ∧
  response_queues
    (loop_body
       (server_at 0
          [ClientItem 7 "GET" "leave" (ArgValue ∅) "alice-cookie" "10.0.0.1"])).1
    !! 7 = None ∧
  (serve_forever
     (server_at 0 [ClientItem 7 "GET" "leave" (ArgValue ∅) "alice-cookie" "10.0.0.1"])
     [Turn]).2 = ShutDown ∧
  response_queues
    (serve_forever
       (server_at 0 [ClientItem 7 "GET" "leave" (ArgValue ∅) "alice-cookie" "10.0.0.1"])
       [Turn]).1 !! 7 = None.
Proof. repeat split; reflexivity. Qed.



(** C3, on a command that the controller does not have: the marker does not
    give the syntax error response, the answer is the unknown command
    response. *)
Lemma syntax_error_marker_unknown_command :
  controller_getattr (game (server_at 0 [])) "GET" "nosuch" = None ∧
  (_execute_client_request (server_at 0 []) "GET" "nosuch"
     (ArgError ArgumentSyntaxError) "" "10.0.0.1").2
  = Returned (error_response "Unknown command" "fresh") ∧
  (_execute_client_request (server_at 0 []) "GET" "nosuch"
     (ArgError ArgumentSyntaxError) "" "10.0.0.1").2
  ≠ Returned (error_response "Syntax error in arguments" "fresh").
Proof.
  split; [reflexivity|]. split; [reflexivity|].
  intros Heq.
  apply (f_equal error_string) in Heq.
  vm_compute in Heq. discriminate Heq.
Qed.

Lemma syntax_error_after_command_resolution_witness :
  (_execute_client_request (server_at 0 []) "GET" "build"
     (ArgError ArgumentSyntaxError) "" "10.0.0.1").2
  = Returned (error_response "Syntax error in arguments" "fresh").
Proof.
  by rewrite (syntax_error_after_command_resolution (server_at 0 []) _
                "GET" "build" "" _ "10.0.0.1" _ eq_refl GET_is_a_method).
Defined.

Lemma handler_error_logged_not_leaked_witness :
  ∃ s',
    _execute_client_request (server_at 0 []) "GET" "broken" (ArgValue ∅)
      "alice-cookie" "10.0.0.1"
    = (s', Returned (error_response "ValueError: no such planet" "alice-cookie")) ∧
    log s' = [] ++
      {| logtype := "error";
         message := "10.0.0.1 GET broken ! ValueError: no such planet";
         raw := false |} :: trace_log_lines ValueError ∧
    channel "access" (log s') = [] ∧
    channel "sys" (log s') = [].
Proof.
  apply (handler_error_logged_not_leaked (server_at 0 []) _ "GET" "broken" ∅
           "alice-cookie" "alice-cookie" "10.0.0.1" "alice" broken _ ValueError
           eq_refl GET_is_a_method eq_refl (or_intror eq_refl) eq_refl eq_refl).
Defined.

(** C5, on a guest's request with the marker for arguments: the function is
    not public and the user is a guest, and the answer is the syntax error
    response, not the access denied response. *)
Lemma guest_with_marker_gets_syntax_error :
  controller_getattr (game (server_at 0 [])) "GET" "build" = Some build ∧
  is_public build = false ∧
  is_guest (game (server_at 0 [])) (resolve_identity (server_at 0 []) "").2 = true ∧
  (_execute_client_request (server_at 0 []) "GET" "build"
     (ArgError ArgumentSyntaxError) "" "10.0.0.1").2
  = Returned (error_response "Syntax error in arguments" "fresh") ∧
  (_execute_client_request (server_at 0 []) "GET" "build"
     (ArgError ArgumentSyntaxError) "" "10.0.0.1").2
  ≠ Returned (error_response "Access denied. You have to login." "fresh").
Proof.
  split; [reflexivity|]. split; [reflexivity|]. split; [reflexivity|].
  split; [reflexivity|].
  intros Heq.
  apply (f_equal error_string) in Heq.
  vm_compute in Heq. discriminate Heq.
Qed.

Lemma guest_denied_on_non_public_witness :
  (_execute_client_request (server_at 0 []) "GET" "build" (ArgValue ∅) ""
     "10.0.0.1").2
  = Returned (error_response "Access denied. You have to login." "fresh") ∧
  (_execute_client_request (server_at 0 []) "GET" "build" (ArgValue ∅)
     "alice-cookie" "10.0.0.1").2
  = Returned (success_response "built" "alice-cookie").
Proof.
  split.
  - pose proof (guest_denied_on_non_public (server_at 0 []) _ "GET" "build" ∅
                  "" _ "10.0.0.1" _ build eq_refl GET_is_a_method eq_refl eq_refl)
      as Hguest.
    simpl in Hguest. destruct Hguest as [-> _]. reflexivity.
  - pose proof (guest_denied_on_non_public (server_at 0 []) _ "GET" "build" ∅
                  "alice-cookie" _ "10.0.0.1" _ build eq_refl GET_is_a_method
                  eq_refl eq_refl)
      as Huser.
    simpl in Huser. exact (proj2 (proj2 Huser)).
Defined.

Lemma dump_logs_only_sim_ticks_once_witness :
  ∃ s',
    _execute_inner_command (server_at 0 []) (Member Sim) = (s', Returned tt) ∧
    game s' = {| time := 1; sessions := {[ "alice-cookie" := "alice" ]}; renewed := [] |} ∧
    response_queues s' = ∅ ∧
    calls s' = [] ++ [CallSim] ∧
    log s' = [] ++
      [{| logtype := "sys"; message := "[InnerCommands.Sim] game time = 1";
          raw := false |}].
Proof.
  apply (proj2 (dump_logs_only_sim_ticks_once (server_at 0 []))
           {| time := 1; sessions := {[ "alice-cookie" := "alice" ]}; renewed := [] |}
           eq_refl).
Defined.

End OnSample.

(** ** More on the dispatcher *)

Section DispatcherFacts.
Context `{Collaborators}.

Lemma resolve_identity_flags (s s1 : server) (cookie cookie1 : string) (u : User) :
  resolve_identity s cookie = (s1, cookie1, u) →
  http_server_running s1 = http_server_running s ∧
  logfiles_closed s1 = logfiles_closed s.
Proof.
  rewrite resolve_identity_eq.
  destruct (get_user_by_auth_cookie (game s) cookie).
  - by intros [= <- <- <-].
  - destruct (create_new_session (game s)) as [g [new_cookie new_user]].
    by intros [= <- <- <-].
Qed.

(** The case analysis of [_execute_client_request] after identity
    resolution. *)
Ltac dispatch_step :=
  match goal with
  | |- context [bool_decide (?m ∈ ["GET"; "POST"])] =>
      destruct (bool_decide (m ∈ ["GET"; "POST"])) eqn:?; simpl
  | |- context [controller_getattr ?g ?m ?c] =>
      destruct (controller_getattr g m c) eqn:?; simpl
  | |- context [match ?a with ArgError _ => _ | ArgValue _ => _ end] =>
      destruct a as [[]|?]; simpl
  | |- context [is_public ?f] => destruct (is_public f) eqn:?; simpl
  | |- context [is_guest ?g ?u] => destruct (is_guest g u) eqn:?; simpl
  | |- context [call ?f ?g ?u ?c ?a] =>
      destruct (call f g u c a) as [? [?|?]] eqn:?; simpl
  | |- context [isinstance_Exception ?e] =>
      destruct (isinstance_Exception e) eqn:?; simpl
  | |- context [log_exception _ _ _] => rewrite log_exception_eq; simpl
  end.

Ltac dispatch_cases Hres :=
  unfold _execute_client_request; rewrite Hres; repeat dispatch_step.

(** X1.  The calls that a request makes after identity resolution: the
    controller function is called only when the method is GET or POST, the
    command resolves, the arguments are not the marker, and the function is
    public or the user is no guest; it is called once; [is_guest] is asked
    only for a function that is not public.  A request that is turned down
    leaves the game as identity resolution left it. *)
Theorem controller_called_only_after_all_checks (s s1 : server)
    (method command : string) (a : arguments Args)
    (cookie cookie1 client_ip : string) (u : User) :
  resolve_identity s cookie = (s1, cookie1, u) →
  let result := _execute_client_request s method command a cookie client_ip in
  ∃ later, calls result.1 = calls s1 ++ later ∧
    match bool_decide (method ∈ ["GET"; "POST"]),
          controller_getattr (game s1) method command, a with
    | true, Some f, ArgValue args =>
        if is_public f then
          later = [CallController method command] ∧
          game result.1 = (call f (game s1) u cookie1 args).1
        else if is_guest (game s1) u then
          later = [CallIsGuest] ∧ game result.1 = game s1
        else
          later = [CallIsGuest; CallController method command] ∧
          game result.1 = (call f (game s1) u cookie1 args).1
    | _, _, _ => later = [] ∧ game result.1 = game s1
    end.
Proof.
  intros Hres result. subst result.
  dispatch_cases Hres;
    try (by exists []; rewrite app_nil_r);
    try (by eexists; split; [reflexivity|]);
    try (by eexists; split; [by rewrite <- app_assoc|]).
Qed.

(** X2.  A request that is answered leaves lines on one channel of the log:
    a success leaves one line, the request string, on the access channel; a
    failure leaves its lines on the error channel, and at least one.  The
    response is the success or the failure dictionary with the resolved
    cookie.  When the exception of the function goes on, nothing is
    logged. *)
Theorem answered_request_logged_on_one_channel (s s1 : server)
    (method command : string) (a : arguments Args)
    (cookie cookie1 client_ip : string) (u : User) :
  resolve_identity s cookie = (s1, cookie1, u) →
  let result := _execute_client_request s method command a cookie client_ip in
  match result.2 with
  | Returned response =>
      ∃ lines, log result.1 = log s ++ lines ∧
        ((∃ v, response = success_response v cookie1 ∧
               lines = [{| logtype := "access";
                           message := create_request_string method command a client_ip;
                           raw := false |}]) ∨
         (∃ error, response = error_response error cookie1 ∧
                   lines ≠ [] ∧
                   Forall (λ line, logtype line = "error") lines))
  | Raised e => isinstance_Exception e = false ∧ log result.1 = log s
  end.
Proof.
  intros Hres result. subst result.
  destruct (resolve_identity_frame _ _ _ _ _ Hres) as (_ & _ & Hlog).
  dispatch_cases Hres; rewrite ?Hlog;
    try (by eexists; split; [reflexivity|]; right; eexists;
            split; [reflexivity|]; split; [done|]; repeat constructor);
    try (by eexists; split; [reflexivity|]; left; eexists);
    try done.
  - eexists; split; [reflexivity|]. right. eexists.
    split; [reflexivity|]. split; [done|]. constructor; [done|].
    unfold trace_log_lines. apply Forall_fmap. by apply Forall_true.
  - eexists; split; [reflexivity|]. right. eexists.
    split; [reflexivity|]. split; [done|]. constructor; [done|].
    unfold trace_log_lines. apply Forall_fmap. by apply Forall_true.
Qed.

(** X3.  When the function that a request resolves to returns, the request
    is answered with the success dictionary that holds the returned object
    and the resolved cookie, the game is what the call left, and the one line
    that is logged is the request string, on the access channel. *)
Theorem handler_result_returned_and_logged (s s1 : server) (method command : string)
    (args : Args) (cookie cookie1 client_ip : string) (u : User) (f : Attr)
    (g : World) (v : Value) :
  resolve_identity s cookie = (s1, cookie1, u) →
  method ∈ ["GET"; "POST"] →
  controller_getattr (game s1) method command = Some f →
  is_public f = true ∨ is_guest (game s1) u = false →
  call f (game s1) u cookie1 args = (g, Returned v) →
  ∃ s',
    _execute_client_request s method command (ArgValue args) cookie client_ip
    = (s', Returned (success_response v cookie1)) ∧
    game s' = g ∧
    log s' = log s ++
      [{| logtype := "access";
          message := create_request_string method command (ArgValue args) client_ip;
          raw := false |}] ∧
    channel "error" (log s') = channel "error" (log s).
Proof.
  intros Hres Hmethod Hf Hallowed Hcall.
  destruct (resolve_identity_frame _ _ _ _ _ Hres) as (_ & _ & Hlog).
  unfold _execute_client_request. rewrite Hres.
  rewrite (bool_decide_eq_true_2 _ Hmethod). simpl. rewrite Hf.
  destruct (is_public f) eqn:Hpublic; simpl.
  - rewrite Hcall. eexists. split; [reflexivity|]. simpl. rewrite Hlog.
    split; [done|]. split; [done|].
    unfold channel. by rewrite filter_app, filter_cons_False, app_nil_r.
  - destruct Hallowed as [|Hguest]; [done|]. rewrite Hguest. simpl.
    rewrite Hcall. eexists. split; [reflexivity|]. simpl. rewrite Hlog.
    split; [done|]. split; [done|].
    unfold channel. by rewrite filter_app, filter_cons_False, app_nil_r.
Qed.

(** X4.  An exception of the controller function that does not derive from
    [Exception] is not turned into a response: it leaves
    [_execute_client_request] and the loop, nothing is put on the response
    queue of the request, nothing is logged for the request, and what the
    function did to the game stays.  [serve_forever] then ends as for any
    exception that leaves the loop. *)
Theorem non_error_exception_is_not_answered (s s1 : server) (response_queue : nat)
    (method command : string) (args : Args) (cookie cookie1 client_ip : string)
    (u : User) (f : Attr) (g : World) (e : pyexception) (rest : list work_item) :
  request_queue s
  = ClientItem response_queue method command (ArgValue args) cookie client_ip :: rest →
  resolve_identity (set_request_queue rest s) cookie = (s1, cookie1, u) →
  method ∈ ["GET"; "POST"] →
  controller_getattr (game s1) method command = Some f →
  is_public f = true ∨ is_guest (game s1) u = false →
  call f (game s1) u cookie1 args = (g, Raised e) →
  isinstance_Exception e = false →
  ∃ s',
    loop_body s = (s', Raised e) ∧
    response_queues s' = response_queues s ∧
    log s' = log s ∧
    game s' = g ∧
    ∀ schedule, serve_forever s (Turn :: schedule) = leave_loop s' e.
Proof.
  intros Hqueue Hres Hmethod Hf Hallowed Hcall Herror.
  destruct (resolve_identity_frame _ _ _ _ _ Hres) as (_ & Hr & Hlog).
  simpl in Hr, Hlog.
  assert (Hexec : ∃ s',
    _execute_client_request (set_request_queue rest s) method command
      (ArgValue args) cookie client_ip = (s', Raised e) ∧
    response_queues s' = response_queues s ∧ log s' = log s ∧ game s' = g).
  { unfold _execute_client_request. rewrite Hres.
    rewrite (bool_decide_eq_true_2 _ Hmethod). simpl. rewrite Hf.
    destruct (is_public f) eqn:Hpublic; simpl.
    - rewrite Hcall, Herror. by eexists.
    - destruct Hallowed as [|Hguest]; [done|]. rewrite Hguest. simpl.
      rewrite Hcall, Herror. by eexists. }
  destruct Hexec as (s' & Hexec & Hr' & Hlog' & Hgame).
  assert (Hbody : loop_body s = (s', Raised e)).
  { unfold loop_body. by rewrite Hqueue, Hexec. }
  exists s'. repeat split; try done.
  intros schedule. simpl. by rewrite Hbody.
Qed.

Lemma channel_of_other_lines (name : string) (lines : list log_line) :
  Forall (λ line, logtype line ≠ name) lines → channel name lines = [].
Proof.
  unfold channel. induction 1 as [|line lines Hline _ IH]; [done|].
  by rewrite filter_cons_False.
Qed.

(** X5.  [_execute_client_request] leaves the request queue, the response
    queues and the system channel of the log as they are, and it neither
    stops the HTTP server nor closes the log files. *)
Theorem dispatcher_leaves_queues_and_system_log (s : server)
    (method command : string) (a : arguments Args) (cookie client_ip : string) :
  let result := _execute_client_request s method command a cookie client_ip in
  request_queue result.1 = request_queue s ∧
  response_queues result.1 = response_queues s ∧
  channel "sys" (log result.1) = channel "sys" (log s) ∧
  http_server_running result.1 = http_server_running s ∧
  logfiles_closed result.1 = logfiles_closed s.
Proof.
  intros result. subst result.
  destruct (resolve_identity s cookie) as [[s1 cookie1] u] eqn:Hres.
  destruct (resolve_identity_frame _ _ _ _ _ Hres) as (Hq & Hr & Hlog).
  destruct (resolve_identity_flags _ _ _ _ _ Hres) as (Hhttp & Hfiles).
  assert (Hsys : ∀ lines,
    Forall (λ line, logtype line ≠ "sys") lines →
    channel "sys" (log s1 ++ lines) = channel "sys" (log s)).
  { intros lines Hlines. unfold channel. rewrite filter_app, Hlog.
    fold (channel "sys" lines). fold (channel "sys" (log s)).
    by rewrite (channel_of_other_lines _ _ Hlines), app_nil_r. }
  assert (Htrace : ∀ e, Forall (λ line, logtype line ≠ "sys") (trace_log_lines e)).
  { intros e. unfold trace_log_lines. apply Forall_fmap. by apply Forall_true. }
  dispatch_cases Hres;
    repeat split; try done;
    try (by rewrite <- Hlog, <- (app_nil_r (log s1)); apply Hsys);
    try (apply Hsys; repeat constructor; done);
    try (by rewrite Hlog).
Qed.

Lemma resolve_identity_calls (s s1 : server) (cookie cookie1 : string) (u : User) :
  resolve_identity s cookie = (s1, cookie1, u) →
  ∃ first, calls s1 = calls s ++ first.
Proof.
  rewrite resolve_identity_eq.
  destruct (get_user_by_auth_cookie (game s) cookie).
  - intros [= <- <- <-]. simpl. eexists. by rewrite <- app_assoc.
  - destruct (create_new_session (game s)) as [g [new_cookie new_user]].
    intros [= <- <- <-]. simpl. eexists. by rewrite <- !app_assoc.
Qed.

(** A response that is returned is one of the two dictionaries, with the
    resolved cookie. *)
Lemma returned_response_shape (s s1 : server) (method command : string)
    (a : arguments Args) (cookie cookie1 client_ip : string) (u : User)
    (response : gmap string field) :
  resolve_identity s cookie = (s1, cookie1, u) →
  (_execute_client_request s method command a cookie client_ip).2 = Returned response →
  (∃ error, response = error_response error cookie1) ∨
  (∃ v, response = success_response v cookie1).
Proof.
  intros Hres. dispatch_cases Hres; intros [= <-]; by eauto.
Qed.

(** The fields of the server after [_execute_client_request]. *)
Lemma execute_client_request_fields (s : server)
    (method command : string) (a : arguments Args) (cookie client_ip : string) :
  let result := _execute_client_request s method command a cookie client_ip in
  request_queue result.1 = request_queue s ∧
  response_queues result.1 = response_queues s ∧
  http_server_running result.1 = http_server_running s ∧
  logfiles_closed result.1 = logfiles_closed s ∧
  (∃ lines, log result.1 = log s ++ lines) ∧
  (∃ later, calls result.1 = calls s ++ later).
Proof.
  intros result. subst result.
  destruct (resolve_identity s cookie) as [[s1 cookie1] u] eqn:Hres.
  destruct (resolve_identity_frame _ _ _ _ _ Hres) as (Hq & Hr & Hlog).
  destruct (resolve_identity_flags _ _ _ _ _ Hres) as (Hhttp & Hfiles).
  destruct (resolve_identity_calls _ _ _ _ _ Hres) as (first & Hcalls).
  dispatch_cases Hres; rewrite ?Hlog, ?Hcalls, <- ?app_assoc;
    repeat split; try done; try (by eexists);
    try (by exists []; rewrite app_nil_r).
Qed.

End DispatcherFacts.

(** ** More on the loop *)

Section LoopFacts.
Context `{Collaborators}.

(** The fields of the server after [_execute_inner_command]. *)
Lemma execute_inner_command_fields (s : server) (command : inner_command) :
  let result := _execute_inner_command s command in
  request_queue result.1 = request_queue s ∧
  response_queues result.1 = response_queues s ∧
  http_server_running result.1 = http_server_running s ∧
  logfiles_closed result.1 = logfiles_closed s ∧
  (∃ lines, log result.1 = log s ++ lines) ∧
  (∃ later, calls result.1 = calls s ++ later).
Proof.
  destruct command as [[|]|repr]; simpl.
  - destruct (sim (game s)) as [g [[]|e]]; simpl;
      repeat split; try done; try (by eexists);
      by exists []; rewrite app_nil_r.
  - repeat split; try done; [|by exists []; rewrite app_nil_r].
    eexists. by rewrite <- app_assoc.
  - repeat split; try done; [by eexists | by exists []; rewrite app_nil_r].
Qed.

(** The fields of the server after a turn of the loop. *)
Lemma loop_body_fields (s : server) :
  request_queue (loop_body s).1 = tail (request_queue s) ∧
  http_server_running (loop_body s).1 = http_server_running s ∧
  logfiles_closed (loop_body s).1 = logfiles_closed s ∧
  (∃ lines, log (loop_body s).1 = log s ++ lines) ∧
  (∃ later, calls (loop_body s).1 = calls s ++ later).
Proof.
  unfold loop_body. destruct (request_queue s) as [|request rest] eqn:Hqueue.
  { simpl. rewrite Hqueue.
    repeat split; try done; by exists []; rewrite app_nil_r. }
  destruct request as [command|response_queue method command a cookie client_ip].
  - by destruct (execute_inner_command_fields (set_request_queue rest s) command)
      as (? & ? & ? & ? & ? & ?).
  - destruct (execute_client_request_fields (set_request_queue rest s)
                method command a cookie client_ip) as (? & ? & ? & ? & ? & ?).
    destruct (_execute_client_request (set_request_queue rest s) method command a
                cookie client_ip) as [s' [response|e]]; by simpl in *.
Qed.

(** X6.  A turn of the loop takes the first item off the request queue and
    nothing else, also when the item's processing raises: an item is never
    put back, and the items behind it keep their order. *)
Theorem turn_takes_the_first_item (s : server) :
  request_queue (loop_body s).1 = tail (request_queue s).
Proof. apply loop_body_fields. Qed.

Lemma leave_loop_fields (s : server) (e : pyexception) :
  (leave_loop s e).2 ≠ StillServing ∧
  http_server_running (leave_loop s e).1 = false ∧
  logfiles_closed (leave_loop s e).1 = true ∧
  last (log (leave_loop s e).1)
  = Some {| logtype := "sys"; message := "Shut down."; raw := false |} ∧
  (∃ lines, log (leave_loop s e).1 = log s ++ lines) ∧
  calls (leave_loop s e).1 = calls s ∧
  game (leave_loop s e).1 = game s ∧
  request_queue (leave_loop s e).1 = request_queue s ∧
  response_queues (leave_loop s e).1 = response_queues s.
Proof.
  unfold leave_loop. destruct (isinstance_shutdown e); simpl.
  - repeat split; try done; [by rewrite last_snoc|].
    eexists. by rewrite <- app_assoc.
  - repeat split; try done; [by rewrite last_snoc | by eexists].
Qed.

(** X7.  However [serve_forever] ends, by a shutdown signal or by an
    exception that goes on to the caller, the [finally] clause has run: the
    HTTP server is stopped, the log files are closed and the last line of the
    log is "Shut down." on the system channel.  While it serves, the HTTP
    server and the log files are as they were. *)
Theorem serve_forever_always_shuts_down (s : server) (schedule : list event) :
  match (serve_forever s schedule).2 with
  | StillServing =>
      http_server_running (serve_forever s schedule).1 = http_server_running s ∧
      logfiles_closed (serve_forever s schedule).1 = logfiles_closed s
  | _ =>
      http_server_running (serve_forever s schedule).1 = false ∧
      logfiles_closed (serve_forever s schedule).1 = true ∧
      last (log (serve_forever s schedule).1)
      = Some {| logtype := "sys"; message := "Shut down."; raw := false |}
  end.
Proof.
  revert s. induction schedule as [|ev schedule IH]; intros s; [done|].
  assert (Hleave : ∀ s0 e,
    match (leave_loop s0 e).2 with
    | StillServing =>
        http_server_running (leave_loop s0 e).1 = http_server_running s ∧
        logfiles_closed (leave_loop s0 e).1 = logfiles_closed s
    | _ =>
        http_server_running (leave_loop s0 e).1 = false ∧
        logfiles_closed (leave_loop s0 e).1 = true ∧
        last (log (leave_loop s0 e).1)
        = Some {| logtype := "sys"; message := "Shut down."; raw := false |}
    end).
  { intros s0 e. destruct (leave_loop_fields s0 e) as (Hne & ? & ? & ? & _).
    by destruct ((leave_loop s0 e).2). }
  destruct ev as [|command|my_queue method command a cookie client_ip|];
    cbn [serve_forever].
  - destruct (loop_body_fields s) as (_ & Hhttp & Hfiles & _).
    destruct (loop_body s) as [s' [[]|e]]; simpl in *; [|apply Hleave].
    specialize (IH s'). rewrite Hhttp, Hfiles in IH. exact IH.
  - apply (IH (_cron_fun s command)).
  - apply (IH (_get_response_put s my_queue method command a cookie client_ip)).
  - apply Hleave.
Qed.

(** X8.  [serve_forever] only appends to the log and to the calls of the
    collaborators: what was logged is never changed or removed, whatever the
    threads do. *)
Theorem serve_forever_appends_to_log (s : server) (schedule : list event) :
  log s `prefix_of` log (serve_forever s schedule).1 ∧
  calls s `prefix_of` calls (serve_forever s schedule).1.
Proof.
  revert s. induction schedule as [|ev schedule IH]; intros s; [done|].
  destruct ev as [|command|my_queue method command a cookie client_ip|];
    cbn [serve_forever].
  - destruct (loop_body_fields s) as (_ & _ & _ & [lines Hlog] & [later Hcalls]).
    destruct (loop_body s) as [s' [[]|e]]; simpl in *.
    + destruct (IH s') as [Hl Hc]. rewrite Hlog in Hl. rewrite Hcalls in Hc.
      split; [by eapply prefix_app_l | by eapply prefix_app_l].
    + destruct (leave_loop_fields s' e) as (_ & _ & _ & _ & [more Hmore] & Hc & _).
      rewrite Hmore, Hc, Hlog, Hcalls, <- app_assoc.
      split; by apply prefix_app_r.
  - apply (IH (_cron_fun s command)).
  - apply (IH (_get_response_put s my_queue method command a cookie client_ip)).
  - destruct (leave_loop_fields s KeyboardInterrupt)
      as (_ & _ & _ & _ & [more Hmore] & Hc & _).
    rewrite Hmore, Hc. split; [by apply prefix_app_r | done].
Qed.

(** X9.  A schedule can be run in two pieces, and once [serve_forever] has
    ended nothing of the rest of the schedule is run: no request that is
    still queued or that comes later is processed. *)
Theorem serve_forever_app (s : server) (schedule later : list event) :
  serve_forever s (schedule ++ later)
  = match serve_forever s schedule with
    | (s', StillServing) => serve_forever s' later
    | ended => ended
    end.
Proof.
  revert s. induction schedule as [|ev schedule IH]; intros s; [done|].
  rewrite <- app_comm_cons.
  destruct ev as [|command|my_queue method command a cookie client_ip|];
    cbn [serve_forever].
  - destruct (loop_body s) as [s' [[]|e]]; [apply IH|].
    destruct (leave_loop_fields s' e) as (Hne & _).
    by destruct (leave_loop s' e) as [s'' []].
  - apply IH.
  - apply IH.
  - destruct (leave_loop_fields s KeyboardInterrupt) as (Hne & _).
    by destruct (leave_loop s KeyboardInterrupt) as [s'' []].
Qed.

(** X10.  A request that a request thread submits to a server with an empty
    request queue is answered by the next turn of the loop: the queue that
    the thread made holds the one response that [_execute_client_request]
    returns, and the request queue is empty again.  The controller function
    that is addressed is one that raises nothing but errors. *)
Theorem submitted_request_answered_by_next_turn (s : server) (my_queue : nat)
    (method command : string) (a : arguments Args) (cookie client_ip : string)
    (schedule : list event) :
  request_queue s = [] →
  (∀ w f, controller_getattr w method command = Some f → raises_only_errors f) →
  ∃ s' response,
    serve_forever s
      (ClientSubmits my_queue method command a cookie client_ip :: Turn :: schedule)
    = serve_forever s' schedule ∧
    (_execute_client_request
       (set_response_queues (<[my_queue := []]> (response_queues s)) s)
       method command a cookie client_ip).2 = Returned response ∧
    response_queues s' !! my_queue = Some [response] ∧
    request_queue s' = [].
Proof.
  intros Hqueue Herr.
  destruct (execute_client_request_returns
              (set_response_queues (<[my_queue := []]> (response_queues s)) s)
              method command a cookie client_ip Herr)
    as (s1 & response & Hexec & Hq & Hr).
  simpl in Hq, Hr.
  exists (put my_queue response s1), response.
  split; [|split; [by rewrite Hexec|split]].
  - simpl. unfold loop_body, _get_response_put. simpl. rewrite Hqueue. simpl.
    replace (set_request_queue []
               (set_request_queue
                  [ClientItem my_queue method command a cookie client_ip]
                  (set_response_queues (<[my_queue := []]> (response_queues s)) s)))
      with (set_response_queues (<[my_queue := []]> (response_queues s)) s)
      by (unfold set_request_queue, set_response_queues; simpl; by rewrite Hqueue).
    by rewrite Hexec.
  - unfold put. simpl. rewrite lookup_insert_eq, Hr, lookup_insert_eq. done.
  - simpl. by rewrite Hq.
Qed.

(** X11.  An inner command, whichever it is, writes to the system channel
    only, each line after the name of the command in brackets, and puts
    nothing on a response queue.  A command other than [Sim] completes,
    calls no collaborator and leaves the game as it is. *)
Theorem inner_command_writes_system_log_only (s : server) (command : inner_command) :
  let result := _execute_inner_command s command in
  response_queues result.1 = response_queues s ∧
  request_queue result.1 = request_queue s ∧
  (∃ lines, log result.1 = log s ++ lines ∧
     Forall (λ line, logtype line = "sys" ∧ raw line = false ∧
                     ∃ text, message line = "[" +:+ str_command command +:+ "] " +:+ text)
            lines) ∧
  (command ≠ Member Sim →
   result.2 = Returned tt ∧ game result.1 = game s ∧ calls result.1 = calls s).
Proof.
  destruct command as [[|]|repr]; simpl.
  - destruct (sim (game s)) as [g [[]|e]]; simpl.
    + repeat split; try done. eexists. split; [reflexivity|].
      repeat constructor. by eexists.
    + repeat split; try done. exists []. by rewrite app_nil_r.
  - repeat split; try done. eexists. split; [by rewrite <- app_assoc|].
    repeat constructor; by eexists.
  - repeat split; try done. eexists. split; [reflexivity|].
    repeat constructor. by eexists.
Qed.

End LoopFacts.

(** ** The start of the server *)

Section MainFacts.
Context `{Collaborators}.

(** X12.  When the server is constructed, [main] starts it, which writes the
    line with the address to the system channel before anything is served,
    and calls [serve_forever] on it.  The line "Zandagort Server shut down."
    is printed when [serve_forever] returns, after a shutdown signal, and not
    when an exception of the loop goes on through [main]. *)
Theorem main_serves_and_reports_shutdown (s : server) (schedule : list event) :
  let served := serve_forever (start s) schedule in
  log (start s) = log s ++
    [{| logtype := "sys";
        message := "Listening at " +:+ SERVER_HOST +:+ ":" +:+ str_SERVER_PORT +:+ "...";
        raw := false |}] ∧
  http_server_running (start s) = true ∧
  game (start s) = game s ∧
  (main (Constructed s) schedule).2 = Served served.1 served.2 ∧
  (main (Constructed s) schedule).1
  = ["Launching Zandagort Server..."; "Zandagort Server launched."]
    ++ match served.2 with
       | ShutDown => ["Zandagort Server shut down."]
       | _ => []
       end.
Proof.
  intros served. subst served. unfold main.
  destruct (serve_forever (start s) schedule) as [s' []]; by simpl.
Qed.

End MainFacts.

(** ** The request handler *)

Section RouteFacts.
Variable percent_decode : string → string.

Lemma lstrip_no_leading (c : ascii) (s rest : string) :
  lstrip c s ≠ String c rest.
Proof.
  induction s as [|d s IH]; simpl; [done|].
  destruct (Ascii.eqb_spec d c) as [->|Hne]; [done|]. congruence.
Qed.

(** [_parse_qs_flat] returns, and what it returns has the first value of each
    name. *)
Lemma parse_qs_flat_lookup (query : string) :
  ∃ flat, QueryString._parse_qs_flat percent_decode query = Some flat ∧
    ∀ key, flat !! key
           = head (QueryString.values_of key
                     (QueryString.parse_qsl percent_decode query)).
Proof.
  unfold QueryString._parse_qs_flat.
  destruct (flatten_items_lookup
              (map_to_list (QueryString.parse_qs percent_decode query)) ∅)
    as (flat & Hflat & Hlookup).
  { apply NoDup_fst_map_to_list. }
  { apply Forall_forall. intros [key values] Hin. simpl.
    apply elem_of_map_to_list in Hin.
    by apply (parse_qs_nonempty percent_decode query key values). }
  exists flat. split; [done|]. intros key.
  rewrite Hlookup, list_to_map_to_list, parse_qs_lookup.
  destruct (QueryString.values_of key _); [by rewrite lookup_empty | done].
Qed.

(** X13.  A command that [do_GET] sends to the core server is the path of
    the URL without its leading slashes, so it does not start with a slash,
    and it is none of the names that are served as files: not ["test"],
    ["test/"] or ["favicon.ico"], and it does not start with ["static/"].
    Its arguments are the flat dictionary of the query, never the
    [ArgumentSyntaxError] marker. *)
Theorem get_command_is_no_static_name (url_path url_query method command : string)
    (a : arguments (gmap string string)) :
  do_GET_route percent_decode url_path url_query = CoreRequest method command a →
  method = "GET" ∧
  command = lstrip "/" url_path ∧
  (∀ rest, command ≠ String "/" rest) ∧
  command ≠ "test" ∧ command ≠ "test/" ∧ command ≠ "favicon.ico" ∧
  String.prefix "static/" command = false ∧
  ∃ flat, a = ArgValue flat ∧
    QueryString._parse_qs_flat percent_decode url_query = Some flat.
Proof.
  unfold do_GET_route.
  case_bool_decide as Htest; [done|].
  destruct (String.prefix "static/" (lstrip "/" url_path)) eqn:Hstatic; [done|].
  case_bool_decide as Hicon; [done|].
  destruct (parse_qs_flat_lookup url_query) as (flat & Hflat & _).
  rewrite Hflat. intros [= <- <- <-].
  repeat split; try done.
  - intros rest. apply lstrip_no_leading.
  - intros Heq. apply Htest. by left.
  - intros Heq. apply Htest. by right.
  - by exists flat.
Qed.

Lemma prefix_take_drop (p s : string) :
  String.prefix p s = true → p +:+ string_drop (String.length p) s = s.
Proof.
  revert s. induction p as [|a p IH]; intros s; [done|].
  destruct s as [|b s]; [done|]. cbn [String.prefix].
  destruct (ascii_dec a b) as [->|]; [|done].
  intros Hprefix.
  change (String b (p +:+ string_drop (String.length p) s) = String b s).
  f_equal. by apply IH.
Qed.

Lemma prefix_cons (a b : ascii) (p s : string) :
  String.prefix (String a p) (String b s) = Ascii.eqb b a && String.prefix p s.
Proof.
  cbn [String.prefix].
  destruct (ascii_dec a b) as [->|Hne]; [by rewrite Ascii.eqb_refl|].
  by destruct (Ascii.eqb_spec b a) as [->|].
Qed.

Lemma prefix_empty (s : string) : String.prefix "" s = true.
Proof. by destruct s. Qed.

(** The directory of a file name, when it has one. *)
Lemma directory_is_prefix (d filename : string) :
  index "/" d = None →
  match index "/" filename with
  | Some i => Some (string_take i filename)
  | None => None
  end = Some d
  ↔ String.prefix (d +:+ "/") filename = true.
Proof.
  revert filename. induction d as [|a d IH]; intros filename Hd.
  - change ("" +:+ "/") with "/".
    destruct filename as [|c r]; [done|].
    rewrite prefix_cons, prefix_empty, andb_true_r. cbn [index].
    destruct (Ascii.eqb c "/"); [done|].
    destruct (index "/" r); cbn; split; done.
  - change (String a d +:+ "/") with (String a (d +:+ "/")).
    cbn [index] in Hd. destruct (Ascii.eqb a "/") eqn:Ha; [done|].
    destruct (index "/" d) eqn:Hindex; [done|].
    destruct filename as [|c r]; [done|].
    rewrite prefix_cons. cbn [index].
    destruct (Ascii.eqb_spec c a) as [->|Hca].
    + rewrite Ha, andb_true_l, <- (IH r eq_refl).
      destruct (index "/" r); cbn; split; congruence.
    + rewrite andb_false_l.
      destruct (Ascii.eqb c "/"); [done|].
      destruct (index "/" r); cbn; split; congruence.
Qed.

(** X15.  Without a given content type, a static file is sent as
    JavaScript when its name starts with ["js/"], as a style sheet when it
    starts with ["css/"], and as HTML otherwise, also when the name has no
    directory at all. *)
Theorem static_content_type_by_directory (filename : string) :
  static_content_type filename None
  = if String.prefix "js/" filename then "text/javascript"
    else if String.prefix "css/" filename then "text/css"
    else "text/html".
Proof.
  unfold static_content_type.
  pose proof (directory_is_prefix "js" filename eq_refl) as Hjs.
  pose proof (directory_is_prefix "css" filename eq_refl) as Hcss.
  change ("js" +:+ "/") with "js/" in Hjs.
  change ("css" +:+ "/") with "css/" in Hcss.
  destruct (index "/" filename) as [i|].
  - destruct (String.eqb_spec (string_take i filename) "js") as [Heq|Hne].
    { by rewrite (proj1 Hjs (f_equal Some Heq)). }
    destruct (String.prefix "js/" filename).
    { destruct Hne. by injection (proj2 Hjs eq_refl). }
    destruct (String.eqb_spec (string_take i filename) "css") as [Heq|Hne'].
    { by rewrite (proj1 Hcss (f_equal Some Heq)). }
    destruct (String.prefix "css/" filename); [|done].
    destruct Hne'. by injection (proj2 Hcss eq_refl).
  - destruct (String.prefix "js/" filename).
    { by pose proof (proj2 Hjs eq_refl). }
    destruct (String.prefix "css/" filename); [|done].
    by pose proof (proj2 Hcss eq_refl).
Qed.

End RouteFacts.

Section ResponseFacts.
Context `{Collaborators}.
Variable percent_decode : string → string.
Variable AUTH_COOKIE_NAME : string.
Variable AUTH_COOKIE_EXPIRY : Z.
Variable json_dumps : gmap string field → outcome string.
Variable is_None : Value → bool.
Variable equals_empty_str : Value → bool.
Variable read_file : string → outcome string.
Variable write_str_TypeError : pyexception.

(** X14.  A URL whose path, without its leading slashes, starts with
    ["static/"] is answered with a file and never reaches the core server.
    The file that [_send_static_file] opens and reads, ["static/"] followed
    by the file name, is that path itself, without any normalisation.  Its
    content is sent raw, with the content type of its directory, its length
    and no cookie; when the file cannot be read, nothing is sent and the
    exception goes on. *)
Theorem static_route_opens_the_path (url_path url_query : string) :
  String.prefix "static/" (lstrip "/" url_path) = true →
  ∃ filename,
    do_GET_route percent_decode url_path url_query = StaticFile filename None ∧
    "static/" +:+ filename = lstrip "/" url_path ∧
    _send_static_file AUTH_COOKIE_NAME AUTH_COOKIE_EXPIRY json_dumps is_None
      equals_empty_str read_file write_str_TypeError filename None
    = match read_file (lstrip "/" url_path) with
      | Raised e => ([], Raised e)
      | Returned content =>
          ([send_response 200;
            send_header "Content-type"
              (static_content_type filename None +:+ "; charset=utf-8");
            send_header "Content-length" (str_of_nat (String.length content));
            end_headers;
            wfile_write content],
           Returned tt)
      end.
Proof.
  intros Hstatic. unfold do_GET_route.
  case_bool_decide as Htest.
  { by destruct Htest as [Heq|Heq]; rewrite Heq in Hstatic. }
  rewrite Hstatic. eexists. split; [reflexivity|].
  pose proof (prefix_take_drop "static/" _ Hstatic) as Hpath.
  split; [exact Hpath|].
  unfold _send_static_file.
  change (String.length "static/") with 7 in Hpath. rewrite Hpath.
  by destruct (read_file (lstrip "/" url_path)).
Qed.

(** X16.  What the request thread sends for a response of the core server:
    the cookie of the response is not part of the body, which is the
    dictionary with the one key ["error"] or ["response"]; the headers are
    sent, with the length of the body and with the resolved cookie as the
    authentication cookie, to be deleted when it is the empty string and with
    the configured expiry otherwise.  The body itself is not sent: it is a
    [str], and [self.wfile.write] raises its [TypeError] after the headers.
    When [json.dumps] raises on the body, nothing is sent. *)
Theorem core_response_cookie_sent_not_serialized (s s1 : server)
    (method command : string) (a : arguments Args)
    (cookie cookie1 client_ip content_type : string) (u : User)
    (response : gmap string field) :
  resolve_identity s cookie = (s1, cookie1, u) →
  (_execute_client_request s method command a cookie client_ip).2 = Returned response →
  ∃ body : gmap string field,
    ((∃ error, body = {[ "error" := FStr error ]}) ∨
     (∃ v, body = {[ "response" := FValue v ]})) ∧
    body !! "auth_cookie_value" = None ∧
    _send_response AUTH_COOKIE_NAME AUTH_COOKIE_EXPIRY json_dumps is_None
      equals_empty_str write_str_TypeError (Json response) content_type
    = match json_dumps body with
      | Raised e => ([], Raised e)
      | Returned response_text =>
          ([send_response 200;
            send_header "Content-type" (content_type +:+ "; charset=utf-8");
            send_header "Content-length" (str_of_nat (String.length response_text));
            send_cookie AUTH_COOKIE_NAME (FStr cookie1)
              (if bool_decide (cookie1 = "") then (-3600)%Z else AUTH_COOKIE_EXPIRY)
              "/";
            end_headers],
           Raised write_str_TypeError)
      end.
Proof.
  intros Hres Hexec.
  destruct (response_cookie cookie1) as [Herror Hsuccess].
  destruct (returned_response_shape _ _ _ _ _ _ _ _ _ _ Hres Hexec)
    as [[error ->]|[v ->]].
  - exists {[ "error" := FStr error ]}.
    split; [by left; eexists|]. split; [done|].
    unfold _send_response. rewrite Herror.
    replace (delete "auth_cookie_value" (error_response error cookie1))
      with ({[ "error" := FStr error ]} : gmap string field).
    2:{ unfold error_response.
        rewrite delete_insert_ne by done. by rewrite delete_singleton_eq. }
    destruct (json_dumps {[ "error" := FStr error ]}); [|done].
    unfold send_headers. simpl. by case_bool_decide.
  - exists {[ "response" := FValue v ]}.
    split; [by right; eexists|]. split; [done|].
    unfold _send_response. rewrite Hsuccess.
    replace (delete "auth_cookie_value" (success_response v cookie1))
      with ({[ "response" := FValue v ]} : gmap string field).
    2:{ unfold success_response.
        rewrite delete_insert_ne by done. by rewrite delete_singleton_eq. }
    destruct (json_dumps {[ "response" := FValue v ]}); [|done].
    unfold send_headers. simpl. by case_bool_decide.
Qed.

End ResponseFacts.

(** ** The query parser, again *)

Section QueryKeys.
Variable percent_decode : string → string.

(** X17.  The keys of the dictionary that [_parse_qs_flat] returns are the
    names of the fields of the query that parse: a field that is empty, that
    has no ["="] or whose value is blank gives no key. *)
Theorem parse_qs_flat_keys (query key : string) (flat : gmap string string) :
  QueryString._parse_qs_flat percent_decode query = Some flat →
  is_Some (flat !! key)
  ↔ ∃ name_value value,
      name_value ∈ QueryString.split "&" query ∧
      QueryString.parse_field percent_decode name_value = Some (key, value).
Proof.
  destruct (parse_qs_flat_lookup percent_decode query) as (flat' & -> & Hlookup).
  intros [= <-]. rewrite Hlookup. unfold QueryString.values_of, QueryString.parse_qsl.
  split.
  - intros [value Hhead]. apply head_Some_elem_of in Hhead.
    apply list_elem_of_fmap in Hhead as ([name value'] & -> & Hin).
    apply list_elem_of_filter in Hin as [Hname Hin]. simpl in Hname. subst name.
    apply list_elem_of_omap in Hin as (name_value & Hin & Hfield).
    by exists name_value, value'.
  - intros (name_value & value & Hin & Hfield).
    assert (Hmem : value ∈ (λ p : string * string, p.2)
                     <$> filter (λ p : string * string, p.1 = key)
                           (omap (QueryString.parse_field percent_decode)
                              (QueryString.split "&" query))).
    { apply list_elem_of_fmap. exists (key, value). split; [done|].
      apply list_elem_of_filter. split; [done|].
      apply list_elem_of_omap. by exists name_value. }
    destruct ((λ p : string * string, p.2)
                <$> filter (λ p : string * string, p.1 = key)
                      (omap (QueryString.parse_field percent_decode)
                         (QueryString.split "&" query))) as [|first others].
    + by apply not_elem_of_nil in Hmem.
    + by eexists.
Qed.

End QueryKeys.

(** ** The galaxy *)

Section GalaxyFacts.
Variable Planet : Type.
Variable new_planet : nat → Planet.
Variable planet_sim : Planet → Planet * outcome unit.
Variable NUMBER_OF_PLANETS : Z.

Lemma galaxy_init_loop (n start : nat) (planets : list Planet) :
  foldl (λ _planets _, _planets ++ [new_planet (List.length _planets)]) planets
        (seq start n)
  = planets ++ (new_planet <$> seq (List.length planets) n).
Proof.
  revert start planets. induction n as [|n IH]; intros start planets; simpl.
  - by rewrite app_nil_r.
  - rewrite IH, length_app. simpl. rewrite Nat.add_1_r, <- app_assoc. done.
Qed.

(** X18.  A new galaxy has [config.NUMBER_OF_PLANETS] planets, the planets
    that the constructor of [Planet] makes, in the order of their making;
    none when the number is zero or negative. *)
Theorem galaxy_has_number_of_planets :
  Galaxy.__init__ Planet new_planet NUMBER_OF_PLANETS
  = new_planet <$> seq 0 (Z.to_nat NUMBER_OF_PLANETS) ∧
  List.length (Galaxy.__init__ Planet new_planet NUMBER_OF_PLANETS)
  = Z.to_nat NUMBER_OF_PLANETS ∧
  ((NUMBER_OF_PLANETS ≤ 0)%Z → Galaxy.__init__ Planet new_planet NUMBER_OF_PLANETS = []).
Proof.
  unfold Galaxy.__init__, Galaxy.range. rewrite galaxy_init_loop. simpl.
  split; [done|]. split; [by rewrite length_fmap, length_seq|].
  intros Hn. replace (Z.to_nat NUMBER_OF_PLANETS) with 0 by lia. done.
Qed.

(** X19.  [Galaxy.sim] keeps the number of planets.  When it returns, every
    planet has been simulated once, in place; when it raises, it raises what
    the first failing planet raised: the planets before that one have been
    simulated, the failing one is as its [sim] left it, and the planets
    behind it have not been touched. *)
Theorem galaxy_sim_stops_at_first_failure (planets : list Planet) :
  List.length (Galaxy.sim Planet planet_sim planets).1 = List.length planets ∧
  match (Galaxy.sim Planet planet_sim planets).2 with
  | Returned _ =>
      Forall2 (λ p p', planet_sim p = (p', Returned tt)) planets
              (Galaxy.sim Planet planet_sim planets).1
  | Raised e =>
      ∃ before before' p p' behind,
        planets = before ++ p :: behind ∧
        (Galaxy.sim Planet planet_sim planets).1 = before' ++ p' :: behind ∧
        Forall2 (λ p p', planet_sim p = (p', Returned tt)) before before' ∧
        planet_sim p = (p', Raised e)
  end.
Proof.
  induction planets as [|planet_n rest [IHlen IH]];
    [split; [done | constructor]|].
  cbn [Galaxy.sim].
  destruct (planet_sim planet_n) as [planet_n' [[]|e]] eqn:Hsim.
  - destruct (Galaxy.sim Planet planet_sim rest) as [rest' [[]|e]]; simpl in *.
    + split; [by rewrite IHlen|]. by constructor.
    + split; [by rewrite IHlen|].
      destruct IH as (before & before' & p & p' & behind & -> & -> & Hbefore & Hp).
      exists (planet_n :: before), (planet_n' :: before'), p, p', behind.
      repeat split; try done. by constructor.
  - simpl. split; [done|].
    by exists [], [], planet_n, planet_n', rest.
Qed.

End GalaxyFacts.

(** ** The further theorems on the small deployment *)

Section MoreOnSample.
Import Sample.

(** A guest asks for the function that is not public: [is_guest] is the one
    call after identity resolution. *)
Lemma controller_called_only_after_all_checks_witness :
  ∃ later,
    calls (_execute_client_request (server_at 0 []) "GET" "build" (ArgValue ∅) ""
             "10.0.0.1").1
    = [CallGetUser ""; CallCreateSession; CallRenewSession "fresh"] ++ later ∧
    later = [CallIsGuest].
Proof.
  destruct (controller_called_only_after_all_checks (server_at 0 []) _
              "GET" "build" (ArgValue ∅) "" _ "10.0.0.1" _ eq_refl)
    as (later & Hcalls & Hcase).
  exists later. split; [exact Hcalls | exact (proj1 Hcase)].
Defined.

Lemma answered_request_logged_on_one_channel_witness :
  ∃ lines,
    log (_execute_client_request (server_at 0 []) "GET" "whoami" (ArgValue ∅) ""
           "10.0.0.1").1 = [] ++ lines ∧
    ((∃ v, success_response "guest" "fresh" = success_response v "fresh" ∧
           lines = [{| logtype := "access"; message := "10.0.0.1 GET whoami";
                       raw := false |}]) ∨
     (∃ error, success_response "guest" "fresh" = error_response error "fresh" ∧
               lines ≠ [] ∧ Forall (λ line, logtype line = "error") lines)).
Proof.
  exact (answered_request_logged_on_one_channel (server_at 0 []) _
           "GET" "whoami" (ArgValue ∅) "" _ "10.0.0.1" _ eq_refl).
Defined.

Lemma handler_result_returned_and_logged_witness :
  ∃ s',
    _execute_client_request (server_at 0 []) "GET" "whoami" (ArgValue ∅) ""
      "10.0.0.1"
    = (s', Returned (success_response "guest" "fresh")) ∧
    game s' = game (resolve_identity (server_at 0 []) "").1.1 ∧
    log s' = [] ++
      [{| logtype := "access"; message := "10.0.0.1 GET whoami"; raw := false |}] ∧
    channel "error" (log s') = [].
Proof.
  exact (handler_result_returned_and_logged (server_at 0 []) _ "GET" "whoami" ∅
           "" _ "10.0.0.1" _ whoami _ "guest" eq_refl GET_is_a_method eq_refl
           (or_introl eq_refl) eq_refl).
Defined.

Lemma non_error_exception_is_not_answered_witness :
  ∃ s',
    loop_body
      (server_at 0 [ClientItem 7 "GET" "leave" (ArgValue ∅) "alice-cookie" "10.0.0.1"])
    = (s', Raised SystemExit) ∧
    response_queues s' = ∅ ∧
    log s' = [] ∧
    game s' = game (resolve_identity (server_at 0 []) "alice-cookie").1.1 ∧
    ∀ schedule,
      serve_forever
        (server_at 0
           [ClientItem 7 "GET" "leave" (ArgValue ∅) "alice-cookie" "10.0.0.1"])
        (Turn :: schedule)
      = leave_loop s' SystemExit.
Proof.
  exact (non_error_exception_is_not_answered
           (server_at 0
              [ClientItem 7 "GET" "leave" (ArgValue ∅) "alice-cookie" "10.0.0.1"])
           _ 7 "GET" "leave" ∅ "alice-cookie" _ "10.0.0.1" _ leave _ SystemExit []
           eq_refl eq_refl GET_is_a_method eq_refl (or_intror eq_refl) eq_refl
           eq_refl).
Defined.

Lemma submitted_request_answered_by_next_turn_witness :
  ∃ s' response,
    serve_forever (server_at 0 [])
      [ClientSubmits 7 "GET" "broken" (ArgValue ∅) "alice-cookie" "10.0.0.1"; Turn]
    = serve_forever s' [] ∧
    (_execute_client_request
       (set_response_queues (<[7 := []]> (response_queues (server_at 0 [])))
          (server_at 0 []))
       "GET" "broken" (ArgValue ∅) "alice-cookie" "10.0.0.1").2 = Returned response ∧
    response_queues s' !! 7 = Some [response] ∧
    request_queue s' = [].
Proof.
  apply (submitted_request_answered_by_next_turn (server_at 0 []) 7 "GET" "broken"
           (ArgValue ∅) "alice-cookie" "10.0.0.1" [] eq_refl).
  intros w f Hf. vm_compute in Hf. injection Hf as <-.
  intros w1 u cookie a w' e Hcall. simpl in Hcall.
  injection Hcall as _ <-. reflexivity.
Defined.

Lemma inner_command_writes_system_log_only_witness :
  (_execute_inner_command (server_at 0 []) (Member Dump)).2 = Returned tt ∧
  game (_execute_inner_command (server_at 0 []) (Member Dump)).1 = game (server_at 0 []) ∧
  calls (_execute_inner_command (server_at 0 []) (Member Dump)).1 = [].
Proof.
  apply (proj2 (proj2 (proj2
           (inner_command_writes_system_log_only (server_at 0 []) (Member Dump))))).
  discriminate.
Defined.

Lemma get_command_is_no_static_name_witness :
  "planets" = lstrip "/" "//planets" ∧
  ∃ flat, ArgValue {[ "id" := "7" ]} = ArgValue flat ∧
    QueryString._parse_qs_flat (λ s, s) "id=7&id=8&x" = Some flat.
Proof.
  destruct (get_command_is_no_static_name (λ s, s) "//planets" "id=7&id=8&x"
              "GET" "planets" (ArgValue {[ "id" := "7" ]}) eq_refl)
    as (_ & Hcommand & _ & _ & _ & _ & _ & Hflat).
  split; [exact Hcommand | exact Hflat].
Defined.

Lemma static_route_opens_the_path_witness :
  ∃ filename,
    do_GET_route (λ s, s) "/static/js/../../zandagort.py" ""
    = StaticFile filename None ∧
    "static/" +:+ filename = "static/js/../../zandagort.py" ∧
    _send_static_file "zanda" 86400 (λ _, Returned "{}") (λ _, false)
      (λ v, bool_decide (v = "")) one_file write_TypeError filename None
    = ([send_response 200;
        send_header "Content-type"
          (static_content_type filename None +:+ "; charset=utf-8");
        send_header "Content-length" "12";
        end_headers;
        wfile_write "import errno"],
       Returned tt).
Proof.
  exact (static_route_opens_the_path (λ s, s) "zanda" 86400 (λ _, Returned "{}")
           (λ _, false) (λ v, bool_decide (v = "")) one_file write_TypeError
           "/static/js/../../zandagort.py" "" eq_refl).
Defined.

Lemma core_response_cookie_sent_not_serialized_witness :
  ∃ body : gmap string field,
    ((∃ error, body = {[ "error" := FStr error ]}) ∨
     (∃ v, body = {[ "response" := FValue v ]})) ∧
    body !! "auth_cookie_value" = None ∧
    _send_response "zanda" 86400 (λ _, Returned "{}") (λ _, false)
      (λ v, bool_decide (v = "")) write_TypeError
      (Json (success_response "guest" "fresh")) "application/json"
    = ([send_response 200;
        send_header "Content-type" "application/json; charset=utf-8";
        send_header "Content-length" "2";
        send_cookie "zanda" (FStr "fresh") 86400 "/";
        end_headers],
       Raised write_TypeError).
Proof.
  exact (core_response_cookie_sent_not_serialized "zanda" 86400
           (λ _, Returned "{}") (λ _, false) (λ v, bool_decide (v = ""))
           write_TypeError (server_at 0 []) _ "GET" "whoami"
           (ArgValue ∅) "" _ "10.0.0.1" "application/json" _
           (success_response "guest" "fresh") eq_refl eq_refl).
Defined.

Lemma parse_qs_flat_keys_witness :
  is_Some (({[ "id" := "7" ]} : gmap string string) !! "id")
  ↔ ∃ name_value value,
      name_value ∈ QueryString.split "&" "id=7&id=8&x" ∧
      QueryString.parse_field (λ s, s) name_value = Some ("id", value).
Proof.
  exact (parse_qs_flat_keys (λ s, s) "id=7&id=8&x" "id" {[ "id" := "7" ]} eq_refl).
Defined.

Lemma galaxy_has_number_of_planets_witness :
  Galaxy.__init__ nat (λ i, i) (-3) = [].
Proof.
  apply (proj2 (proj2 (galaxy_has_number_of_planets nat (λ i, i) (-3)))).
  done.
Defined.

End MoreOnSample.
